(** * PlisCord Assistant: the streaming detection and orchestration core

    A shallow embedding of [core/wakeword/vad.js], [core/wakeword/detector.js],
    [core/function-caller/gemma.js] and [core/pipeline.js], and the properties
    of the voice-activity hysteresis, the frame batcher, the wake-word
    accumulator and the pipeline state machine.  Around that core, the tool
    registry of [tools/definitions.js], the YouTube tool of
    [tools/youtube.js], the media handlers of [driving-assistant/index.js]
    and the phrase cache, the masks and the playback samples of
    [core/tts/supertonic.js].

    Conventions.
    - JavaScript numbers that carry probabilities, thresholds and samples are
      modelled by rationals ([Q]): every finite double is a rational and the
      code only compares them and tests them against zero.  Counters and
      millisecond timestamps are integers ([Z]); lengths are [nat].  The
      volume of the YouTube tool is a rational too: the rounding of its
      steps of a tenth is not modelled.
    - [undefined]/[null] is [None]; an omitted option is [None].
    - The inference engines, the clock and the tool handlers are outside the
      repository: every call into them is answered by an explicit oracle
      value handed to the function that makes the call, [None] or
      [Rejected] standing for a call that throws.
    - [emit] appends to an event trace.  The listeners that the pipeline
      puts on the detector are applied to that trace by [Pipeline.dispatch];
      listeners of the adapters are taken not to throw, except that an
      ['error'] event without listener throws, as [EventEmitter] has it.
    - [async] methods are run to completion one after the other; the
      interleaving of two calls at their [await]s is not modelled.
    - A JavaScript object used as a dictionary is a [gmap] over its own
      keys (no prototype chain).                                            *)

From Stdlib Require Import ZArith QArith Qround Lia Ascii.
From stdpp Require Import gmap strings list pretty.

#[local] Open Scope Z_scope.

(** ** JavaScript helpers *)

(** [x >= y] and [x < y] on finite numbers. *)
Definition num_ge (x y : Q) : bool := Qle_bool y x.
Definition num_lt (x y : Q) : bool := negb (Qle_bool y x).

(** [o || d] for a numeric option: [undefined] and [0] are falsy. *)
Definition or_default_Q (o : option Q) (d : Q) : Q :=
  match o with
  | Some q => if Qeq_bool q 0 then d else q
  | None => d
  end.

Definition or_default_Z (o : option Z) (d : Z) : Z :=
  match o with
  | Some z => if z =? 0 then d else z
  | None => d
  end.

(** [o || d] for a string option: [undefined] and [""] are falsy. *)
Definition or_default_str (o : option string) (d : string) : string :=
  match o with
  | Some s => if String.eqb s "" then d else s
  | None => d
  end.

Definition or_default_bool (o : option bool) (d : bool) : bool :=
  match o with
  | Some true => true
  | _ => d
  end.

(** Truthiness of a possibly missing string. *)
Definition truthy_str (o : option string) : bool :=
  match o with
  | Some s => negb (String.eqb s "")
  | None => false
  end.

(** An ONNX tensor: its dimensions and its flat data. *)
Record Tensor := mkTensor { dims : list Z; data : list Q }.

(** A typed array of audio samples. *)
Abbreviation Samples := (list Q).

(** ** Promises and thrown values *)

(** What a [catch] clause receives.  Reading [.message] gives the message
    of an [Error], [undefined] on any other non-null value, and throws a
    [TypeError] on [null]/[undefined]. *)
Inductive Thrown :=
| ErrorObj (message : string)
| ThrownOther
| ThrownNullish.

Definition typeError : Thrown :=
  ErrorObj "Cannot read properties of null (reading 'message')".

(** [error.message]: [inl] the value read, [inr] the [TypeError] thrown. *)
Definition read_message (e : Thrown) : option string + Thrown :=
  match e with
  | ErrorObj m => inl (Some m)
  | ThrownOther => inl None
  | ThrownNullish => inr typeError
  end.

(** A value interpolated in a template literal. *)
Definition interpolate (o : option string) : string :=
  match o with
  | Some s => s
  | None => "undefined"
  end.

(** How an awaited call settles. *)
Inductive Completion (A : Type) :=
| Resolved (a : A)
| Rejected (e : Thrown).
Arguments Resolved {A} a.
Arguments Rejected {A} e.

(** ** [core/wakeword/vad.js] *)
Module VAD.

Record Options := mkOptions {
  opt_positiveThreshold : option Q;
  opt_negativeThreshold : option Q;
  opt_negativeCount : option Z
}.

Definition no_options : Options := mkOptions None None None.

Record VADProcessor := mkVAD {
  positiveThreshold : Q;
  negativeThreshold : Q;
  negativeCount : Z;
  isSpeaking : bool;
  negativeSamples : Z;
  wasSpseaking : bool;
  h : option Tensor;
  c : option Tensor
}.

(** [constructor(options = {})] *)
Definition new (options : Options) : VADProcessor :=
  {| positiveThreshold := or_default_Q (opt_positiveThreshold options) 0.65;
     negativeThreshold := or_default_Q (opt_negativeThreshold options) 0.4;
     negativeCount := or_default_Z (opt_negativeCount options) 8;
     isSpeaking := false;
     negativeSamples := 0;
     wasSpseaking := false;
     h := None;
     c := None |}.

Definition zeros : Tensor := mkTensor [2; 1; 64] (repeat 0%Q 128).

(** [getState()]: the recurrent state is created on first use. *)
Definition getState (v : VADProcessor)
  : VADProcessor * (option Tensor * option Tensor) :=
  match h v with
  | Some hv => (v, (Some hv, c v))
  | None =>
      ({| positiveThreshold := positiveThreshold v;
          negativeThreshold := negativeThreshold v;
          negativeCount := negativeCount v;
          isSpeaking := isSpeaking v;
          negativeSamples := negativeSamples v;
          wasSpseaking := wasSpseaking v;
          h := Some zeros;
          c := Some zeros |}, (Some zeros, Some zeros))
  end.

(** What the voice-activity session returns: [hn], [cn] and
    [output.data[0]]. *)
Record Results := mkResults { hn : Tensor; cn : Tensor; output : Q }.

(** The object returned by [process]. *)
Record Output := mkOutput {
  probability : Q;
  out_isSpeaking : bool;
  justStarted : bool;
  justEnded : bool
}.

(** [process(results)] *)
Definition process (v : VADProcessor) (results : Results)
  : VADProcessor * Output :=
  let p := output results in
  let was := isSpeaking v in
  let '(speaking, negs) :=
    if num_ge p (positiveThreshold v) then (true, 0)
    else if num_lt p (negativeThreshold v) then
      let n := negativeSamples v + 1 in
      (if negativeCount v <=? n then false else was, n)
    else (was, negativeSamples v) in
  ({| positiveThreshold := positiveThreshold v;
      negativeThreshold := negativeThreshold v;
      negativeCount := negativeCount v;
      isSpeaking := speaking;
      negativeSamples := negs;
      wasSpseaking := wasSpseaking v;
      h := Some (hn results);
      c := Some (cn results) |},
   {| probability := p;
      out_isSpeaking := speaking;
      justStarted := speaking && negb was;
      justEnded := negb speaking && was |}).

(** [reset()] *)
Definition reset (v : VADProcessor) : VADProcessor :=
  {| positiveThreshold := positiveThreshold v;
     negativeThreshold := negativeThreshold v;
     negativeCount := negativeCount v;
     isSpeaking := false;
     negativeSamples := 0;
     wasSpseaking := wasSpseaking v;
     h := None;
     c := None |}.

(** Feeding a sequence of session results, one call per window. *)
Fixpoint processAll (v : VADProcessor) (rs : list Results)
  : VADProcessor * list Output :=
  match rs with
  | [] => (v, [])
  | r :: rs' =>
      let '(v1, o) := process v r in
      let '(v2, os) := processAll v1 rs' in
      (v2, o :: os)
  end.

End VAD.

(** ** [core/wakeword/detector.js] *)
Module Detector.

(** An audio source is an external event emitter, named by a number. *)
Abbreviation SourceId := nat.

(** The ['data'] listeners held by the audio sources: one entry per
    listener, naming the source it is registered on. *)
Abbreviation Subscriptions := (list nat).

Record Options := mkOptions {
  opt_debug : option bool;
  opt_wakeWord : option string;
  opt_threshold : option Q;
  opt_cooldownMs : option Z
}.

Definition no_options : Options := mkOptions None None None None.

(** Events emitted by the detector, in emission order. *)
Inductive Event :=
| EvVad (probability : Q) (speaking : bool)
| EvSpeechStart
| EvSpeechEnd (audio : option Samples)
| EvDetected.

Record WakeWordDetector := mkDetector {
  debug : bool;
  wakeWord : string;
  threshold : Q;
  cooldownMs : Z;
  sampleRate : Z;
  batchSamples : nat;
  batchInterval : nat;
  isInitialized : bool;
  isRunning : bool;
  isPaused : bool;
  isRecording : bool;
  lastWakeWordTime : Z;
  audioBuffer : Samples;
  recordingBuffer : option Samples;
  vad : VAD.VADProcessor;
  embeddingBuffer : list Tensor;
  embeddingFrames : nat;
  speechProbability : Q;
  audioSource : option SourceId
}.

(** [constructor(options = {})] *)
Definition new (options : Options) : WakeWordDetector :=
  let rate := 16000 in
  {| debug := or_default_bool (opt_debug options) false;
     wakeWord := or_default_str (opt_wakeWord options) "hey-buddy";
     threshold := or_default_Q (opt_threshold options) 0.5;
     cooldownMs := or_default_Z (opt_cooldownMs options) 2000;
     sampleRate := rate;
     batchSamples := Z.to_nat (Qfloor (inject_Z rate * 1.08));
     batchInterval := Z.to_nat (Qfloor (inject_Z rate * 0.12));
     isInitialized := false;
     isRunning := false;
     isPaused := false;
     isRecording := false;
     lastWakeWordTime := 0;
     audioBuffer := [];
     recordingBuffer := None;
     vad := VAD.new (VAD.mkOptions (Some 0.65%Q) (Some 0.4%Q) (Some 8));
     embeddingBuffer := [];
     embeddingFrames := 16;
     speechProbability := 0;
     audioSource := None |}.

(** Field assignments. *)
Definition set_isInitialized (b : bool) (d : WakeWordDetector) :=
  mkDetector (debug d) (wakeWord d) (threshold d) (cooldownMs d)
    (sampleRate d) (batchSamples d) (batchInterval d) b (isRunning d)
    (isPaused d) (isRecording d) (lastWakeWordTime d) (audioBuffer d)
    (recordingBuffer d) (vad d) (embeddingBuffer d) (embeddingFrames d)
    (speechProbability d) (audioSource d).

Definition set_isRunning (b : bool) (d : WakeWordDetector) :=
  mkDetector (debug d) (wakeWord d) (threshold d) (cooldownMs d)
    (sampleRate d) (batchSamples d) (batchInterval d) (isInitialized d) b
    (isPaused d) (isRecording d) (lastWakeWordTime d) (audioBuffer d)
    (recordingBuffer d) (vad d) (embeddingBuffer d) (embeddingFrames d)
    (speechProbability d) (audioSource d).

Definition set_isPaused (b : bool) (d : WakeWordDetector) :=
  mkDetector (debug d) (wakeWord d) (threshold d) (cooldownMs d)
    (sampleRate d) (batchSamples d) (batchInterval d) (isInitialized d)
    (isRunning d) b (isRecording d) (lastWakeWordTime d) (audioBuffer d)
    (recordingBuffer d) (vad d) (embeddingBuffer d) (embeddingFrames d)
    (speechProbability d) (audioSource d).

Definition set_isRecording (b : bool) (d : WakeWordDetector) :=
  mkDetector (debug d) (wakeWord d) (threshold d) (cooldownMs d)
    (sampleRate d) (batchSamples d) (batchInterval d) (isInitialized d)
    (isRunning d) (isPaused d) b (lastWakeWordTime d) (audioBuffer d)
    (recordingBuffer d) (vad d) (embeddingBuffer d) (embeddingFrames d)
    (speechProbability d) (audioSource d).

Definition set_lastWakeWordTime (t : Z) (d : WakeWordDetector) :=
  mkDetector (debug d) (wakeWord d) (threshold d) (cooldownMs d)
    (sampleRate d) (batchSamples d) (batchInterval d) (isInitialized d)
    (isRunning d) (isPaused d) (isRecording d) t (audioBuffer d)
    (recordingBuffer d) (vad d) (embeddingBuffer d) (embeddingFrames d)
    (speechProbability d) (audioSource d).

Definition set_audioBuffer (b : Samples) (d : WakeWordDetector) :=
  mkDetector (debug d) (wakeWord d) (threshold d) (cooldownMs d)
    (sampleRate d) (batchSamples d) (batchInterval d) (isInitialized d)
    (isRunning d) (isPaused d) (isRecording d) (lastWakeWordTime d) b
    (recordingBuffer d) (vad d) (embeddingBuffer d) (embeddingFrames d)
    (speechProbability d) (audioSource d).

Definition set_recordingBuffer (b : option Samples) (d : WakeWordDetector) :=
  mkDetector (debug d) (wakeWord d) (threshold d) (cooldownMs d)
    (sampleRate d) (batchSamples d) (batchInterval d) (isInitialized d)
    (isRunning d) (isPaused d) (isRecording d) (lastWakeWordTime d)
    (audioBuffer d) b (vad d) (embeddingBuffer d) (embeddingFrames d)
    (speechProbability d) (audioSource d).

Definition set_vad (v : VAD.VADProcessor) (d : WakeWordDetector) :=
  mkDetector (debug d) (wakeWord d) (threshold d) (cooldownMs d)
    (sampleRate d) (batchSamples d) (batchInterval d) (isInitialized d)
    (isRunning d) (isPaused d) (isRecording d) (lastWakeWordTime d)
    (audioBuffer d) (recordingBuffer d) v (embeddingBuffer d)
    (embeddingFrames d) (speechProbability d) (audioSource d).

Definition set_embeddingBuffer (b : list Tensor) (d : WakeWordDetector) :=
  mkDetector (debug d) (wakeWord d) (threshold d) (cooldownMs d)
    (sampleRate d) (batchSamples d) (batchInterval d) (isInitialized d)
    (isRunning d) (isPaused d) (isRecording d) (lastWakeWordTime d)
    (audioBuffer d) (recordingBuffer d) (vad d) b (embeddingFrames d)
    (speechProbability d) (audioSource d).

Definition set_speechProbability (p : Q) (d : WakeWordDetector) :=
  mkDetector (debug d) (wakeWord d) (threshold d) (cooldownMs d)
    (sampleRate d) (batchSamples d) (batchInterval d) (isInitialized d)
    (isRunning d) (isPaused d) (isRecording d) (lastWakeWordTime d)
    (audioBuffer d) (recordingBuffer d) (vad d) (embeddingBuffer d)
    (embeddingFrames d) p (audioSource d).

Definition set_audioSource (s : option SourceId) (d : WakeWordDetector) :=
  mkDetector (debug d) (wakeWord d) (threshold d) (cooldownMs d)
    (sampleRate d) (batchSamples d) (batchInterval d) (isInitialized d)
    (isRunning d) (isPaused d) (isRecording d) (lastWakeWordTime d)
    (audioBuffer d) (recordingBuffer d) (vad d) (embeddingBuffer d)
    (embeddingFrames d) (speechProbability d) s.

(** The wake words that have a model ([WAKE_WORD_MODELS]). *)
Definition known_wake_word (w : string) : bool :=
  String.eqb w "hey-buddy" || String.eqb w "ok-buddy"
  || String.eqb w "hi-buddy".

(** [initialize()]: [downloads] is how the model downloads and session
    creations settle; the wake word is looked up before its own model is
    fetched. *)
Definition initialize (downloads : Completion unit) (d : WakeWordDetector)
  : Completion WakeWordDetector :=
  if isInitialized d then Resolved d
  else match downloads with
       | Rejected e => Rejected e
       | Resolved _ =>
           if known_wake_word (wakeWord d)
           then Resolved (set_isInitialized true d)
           else Rejected (ErrorObj ("Unknown wake word: " +:+ wakeWord d))
       end.

(** [start(audioSource)]: throws ([None]) before initialisation. *)
Definition start (d : WakeWordDetector) (subs : Subscriptions)
    (src : SourceId) : option (WakeWordDetector * Subscriptions) :=
  if isInitialized d
  then Some (set_audioSource (Some src) (set_isRunning true d),
             subs ++ [src])
  else None.

(** [removeAllListeners('data')] on one source. *)
Definition removeAllListeners (src : SourceId) (subs : Subscriptions)
  : Subscriptions :=
  filter (λ s, s ≠ src) subs.

(** [stop()] *)
Definition stop (d : WakeWordDetector) (subs : Subscriptions)
  : WakeWordDetector * Subscriptions :=
  (set_isRunning false d,
   match audioSource d with
   | Some src => removeAllListeners src subs
   | None => subs
   end).

(** [pause()] *)
Definition pause (d : WakeWordDetector) : WakeWordDetector :=
  set_isPaused true d.

(** [resume()] *)
Definition resume (d : WakeWordDetector) : WakeWordDetector :=
  set_recordingBuffer None (set_isRecording false (set_isPaused false d)).

(** [dispose()] *)
Definition dispose (d : WakeWordDetector) (subs : Subscriptions)
  : WakeWordDetector * Subscriptions :=
  let '(d1, subs1) := stop d subs in
  (set_isInitialized false d1, subs1).

(** The answers of the outside world during one [processBatch]: what each
    awaited session call returns ([None] when it rejects) and what
    [Date.now()] reads. *)
Record BatchIO := mkBatchIO {
  io_vad : option VAD.Results;
  io_spectrogram : option Tensor;
  io_embedding : option Tensor;
  io_wakeword : option Q;
  io_now : Z
}.

(** [embeddingBuffer.push(e)] followed by the conditional [shift()]. *)
Definition push_embedding (frames : nat) (buf : list Tensor) (e : Tensor)
  : list Tensor :=
  let pushed := buf ++ [e] in
  if (frames <? length pushed)%nat then tail pushed else pushed.

(** [processBatch(audio)].  Every exit through the [catch] returns the
    state as mutated so far together with the events already emitted.
    [getState] is taken to succeed in building its zero tensors. *)
Definition processBatch (d : WakeWordDetector) (audio : Samples)
    (io : BatchIO) : WakeWordDetector * list Event :=
  let v0 := (VAD.getState (vad d)).1 in
  let d0 := set_vad v0 d in
  match io_vad io with
  | None => (d0, [])
  | Some results =>
      let v1 := (VAD.process v0 results).1 in
      let vadResult := (VAD.process v0 results).2 in
      let d1 :=
        set_speechProbability (VAD.probability vadResult) (set_vad v1 d0) in
      let ev1 :=
        EvVad (VAD.probability vadResult) (VAD.out_isSpeaking vadResult)
        :: (if VAD.justStarted vadResult then [EvSpeechStart] else []) in
      let ev2 :=
        ev1 ++ (if VAD.justEnded vadResult
                then [EvSpeechEnd (recordingBuffer d1)] else []) in
      let d2 :=
        if VAD.justEnded vadResult then set_recordingBuffer None d1
        else d1 in
      if negb (VAD.out_isSpeaking vadResult) then (d2, ev2)
      else
        match io_spectrogram io with
        | None => (d2, ev2)
        | Some _ =>
            match io_embedding io with
            | None => (d2, ev2)
            | Some embedding =>
                let d3 :=
                  set_embeddingBuffer
                    (push_embedding (embeddingFrames d2)
                       (embeddingBuffer d2) embedding) d2 in
                if (embeddingFrames d3 <=? length (embeddingBuffer d3))%nat
                then
                  match io_wakeword io with
                  | None => (d3, ev2)
                  | Some p =>
                      if num_ge p (threshold d3) then
                        let now := io_now io in
                        if cooldownMs d3 <=? now - lastWakeWordTime d3
                        then
                          (set_recordingBuffer (Some audio)
                             (set_isRecording true
                                (set_lastWakeWordTime now d3)),
                           ev2 ++ [EvDetected])
                        else (d3, ev2)
                      else (d3, ev2)
                  end
                else (d3, ev2)
            end
        end
  end.

(** A chunk delivered by the audio source. *)
Inductive Chunk :=
| BufferChunk (bytes : list Byte.byte)
| FloatChunk (samples : Samples).

(** [chunk.readInt16LE(i * 2) / 32768.0] *)
Definition readInt16LE (lo hi : Byte.byte) : Z :=
  let u := Z.of_N (Byte.to_N lo) + 256 * Z.of_N (Byte.to_N hi) in
  if u <? 32768 then u else u - 65536.

(** 16-bit PCM to samples; [new Float32Array(chunk.length / 2)] keeps the
    whole pairs. *)
Fixpoint pcm16 (bytes : list Byte.byte) : Samples :=
  match bytes with
  | lo :: hi :: rest =>
      (inject_Z (readInt16LE lo hi) / 32768)%Q :: pcm16 rest
  | _ => []
  end.

Definition toSamples (chunk : Chunk) : Samples :=
  match chunk with
  | BufferChunk bytes => pcm16 bytes
  | FloatChunk samples => samples
  end.

(** One emitted analysis window with what [processBatch] emitted on it. *)
Abbreviation BatchLog := (list (Samples * list Event)).

(** The [while] loop of [processAudioChunk].  [fuel] bounds the number
    of iterations; [None] means the loop is still running when it is
    used up.  [ios i] answers the [i]-th batch. *)
Fixpoint drain (fuel : nat) (ios : nat -> BatchIO) (i : nat)
    (d : WakeWordDetector) : option (WakeWordDetector * BatchLog) :=
  if (batchSamples d <=? length (audioBuffer d))%nat then
    match fuel with
    | O => None
    | S fuel' =>
        let batch := take (batchSamples d) (audioBuffer d) in
        let d1 := set_audioBuffer (drop (batchInterval d) (audioBuffer d)) d in
        let '(d2, evs) := processBatch d1 batch (ios i) in
        match drain fuel' ios (S i) d2 with
        | Some (d3, log) => Some (d3, (batch, evs) :: log)
        | None => None
        end
    end
  else Some (d, []).

(** [processAudioChunk(chunk)], the calls being served one after the
    other. *)
Definition processAudioChunk (fuel : nat) (ios : nat -> BatchIO)
    (i : nat) (d : WakeWordDetector) (chunk : Chunk)
  : option (WakeWordDetector * BatchLog) :=
  if negb (isRunning d) || isPaused d then Some (d, [])
  else
    let samples := toSamples chunk in
    let d1 := set_audioBuffer (audioBuffer d ++ samples) d in
    let d2 :=
      if isRecording d1
      then set_recordingBuffer
             (Some (default [] (recordingBuffer d1) ++ samples)) d1
      else d1 in
    drain fuel ios i d2.

(** A sequence of chunks; the batch counter runs through the calls. *)
Fixpoint processChunks (fuel : nat) (ios : nat -> BatchIO) (i : nat)
    (d : WakeWordDetector) (chunks : list Chunk)
  : option (WakeWordDetector * BatchLog) :=
  match chunks with
  | [] => Some (d, [])
  | chunk :: rest =>
      match processAudioChunk fuel ios i d chunk with
      | Some (d1, log1) =>
          match processChunks fuel ios (i + length log1)%nat d1 rest with
          | Some (d2, log2) => Some (d2, log1 ++ log2)
          | None => None
          end
      | None => None
      end
  end.

(** A sequence of batches handed to [processBatch] directly. *)
Fixpoint processBatches (d : WakeWordDetector)
    (batches : list (Samples * BatchIO))
  : WakeWordDetector * list (list Event) :=
  match batches with
  | [] => (d, [])
  | (audio, io) :: rest =>
      let '(d1, evs) := processBatch d audio io in
      let '(d2, log) := processBatches d1 rest in
      (d2, evs :: log)
  end.

End Detector.

(** ** [core/function-caller/gemma.js] *)
Module FunctionCaller.

Abbreviation Params := (list (string * string)).

(** What a tool handler returns: [response] and the rest. *)
Record ToolResult := mkToolResult {
  tr_response : option string;
  tr_extra : Params
}.

(** How a call of a tool handler settles; [Resolved None] is a handler
    that returns nothing. *)
Abbreviation HandlerOutcome := (Completion (option ToolResult)).

Record Schema := mkSchema { description : string; properties : Params }.

Record Tool := mkTool {
  schema : Schema;
  handler : Params -> HandlerOutcome
}.

(** The object built by [parseResponse] and completed by [process]. *)
Record IntentResult := mkIntent {
  function : option string;
  parameters : Params;
  response : option string;
  executed : option bool;
  toolResult : option ToolResult;
  error : option string
}.

Record FunctionCaller := mkFC {
  debug : bool;
  quantized : bool;
  tools : gmap string Tool;
  isInitialized : bool;
  toolSchemas : gmap string Schema
}.

Record Options := mkOptions {
  opt_debug : option bool;
  opt_quantized : option bool;
  opt_tools : option (gmap string Tool)
}.

(** [constructor(options = {})] *)
Definition new (options : Options) : FunctionCaller :=
  {| debug := or_default_bool (opt_debug options) false;
     quantized := match opt_quantized options with
                  | Some false => false
                  | _ => true
                  end;
     tools := default ∅ (opt_tools options);
     isInitialized := false;
     toolSchemas := ∅ |}.

(** [registerTool(name, schema, handler)] *)
Definition registerTool (name : string) (s : Schema)
    (hd : Params -> HandlerOutcome) (fc : FunctionCaller) : FunctionCaller :=
  {| debug := debug fc;
     quantized := quantized fc;
     tools := <[name := mkTool s hd]> (tools fc);
     isInitialized := isInitialized fc;
     toolSchemas := <[name := s]> (toolSchemas fc) |}.

(** [initialize()]: [load] is how loading tokenizer and model settles. *)
Definition initialize (load : Completion unit) (fc : FunctionCaller)
  : Completion FunctionCaller :=
  if isInitialized fc then Resolved fc
  else match load with
       | Resolved _ =>
           Resolved {| debug := debug fc;
                       quantized := quantized fc;
                       tools := tools fc;
                       isInitialized := true;
                       toolSchemas := toolSchemas fc |}
       | Rejected e => Rejected e
       end.

(** The answers of the outside world during one [process]: the model
    load if one is needed, and the generation, which either throws or
    yields the object [parseResponse] builds from the decoded text. *)
Record ProcessIO := mkProcessIO {
  io_load : Completion unit;
  io_model : Completion IntentResult
}.

Definition apology_prefix : string := "Sorry, I had trouble with that. ".
Definition not_understood : string := "I'm sorry, I didn't understand that.".

(** The outer [catch] of [process]. *)
Definition process_catch (e : Thrown) : Completion IntentResult :=
  match read_message e with
  | inl m =>
      Resolved {| function := None;
                  parameters := [];
                  response := Some not_understood;
                  executed := None;
                  toolResult := None;
                  error := m |}
  | inr e' => Rejected e'
  end.

(** The tool dispatch of [process], inside the outer [try]. *)
Definition execute (fc : FunctionCaller) (result : IntentResult)
  : Completion IntentResult :=
  match function result with
  | Some name =>
      if negb (String.eqb name "") then
        match tools fc !! name with
        | Some tool =>
            match handler tool (parameters result) with
            | Resolved r =>
                Resolved
                  {| function := function result;
                     parameters := parameters result;
                     response :=
                       if truthy_str (r ≫= tr_response)
                       then r ≫= tr_response
                       else response result;
                     executed := Some true;
                     toolResult := r;
                     error := error result |}
            | Rejected e =>
                match read_message e with
                | inl m =>
                    Resolved
                      {| function := function result;
                         parameters := parameters result;
                         response :=
                           Some (apology_prefix +:+ interpolate m);
                         executed := Some false;
                         toolResult := toolResult result;
                         error := m |}
                | inr e' => process_catch e'
                end
            end
        | None => Resolved result
        end
      else Resolved result
  | None => Resolved result
  end.

(** [process(text)].  The ['result'] event it emits has no listener in
    the repository and is left out. *)
Definition process (fc : FunctionCaller) (text : string) (io : ProcessIO)
  : FunctionCaller * Completion IntentResult :=
  match initialize (io_load io) fc with
  | Rejected e => (fc, Rejected e)
  | Resolved fc1 =>
      (fc1,
       match io_model io with
       | Rejected e => process_catch e
       | Resolved result => execute fc1 result
       end)
  end.

(** [dispose()] *)
Definition dispose (fc : FunctionCaller) : FunctionCaller :=
  {| debug := debug fc;
     quantized := quantized fc;
     tools := tools fc;
     isInitialized := false;
     toolSchemas := toolSchemas fc |}.

End FunctionCaller.

(** ** [core/pipeline.js] *)
Module Pipeline.

Inductive State :=
| idle | listening | recording | transcribing | processing | speaking.

#[global] Instance State_eq_dec : EqDecision State.
Proof. solve_decision. Defined.

(** Events emitted by the pipeline, in emission order. *)
Inductive Event :=
| EvStatus (message : string)
| EvReady
| EvStateChange (s : State)
| EvSpeechStart
| EvVad (probability : Q) (speaking : bool)
| EvWakeWord
| EvTranscript (text : option string)
| EvIntent (result : FunctionCaller.IntentResult)
| EvError (e : Thrown).

Record VoicePipeline := mkPipeline {
  debug : bool;
  performanceMode : string;
  wakeWord : string;
  ttsVoice : string;
  tools : gmap string FunctionCaller.Tool;
  state : State;
  isInitialized : bool;
  isPaused : bool;
  wakeWordDetector : option Detector.WakeWordDetector;
  stt : bool;
  functionCaller : option FunctionCaller.FunctionCaller;
  tts : bool;
  (** number of ['error'] listeners registered on the pipeline *)
  errorListeners : nat
}.

Record Options := mkOptions {
  opt_debug : option bool;
  opt_performanceMode : option string;
  opt_wakeWord : option string;
  opt_ttsVoice : option string;
  opt_tools : option (gmap string FunctionCaller.Tool)
}.

Definition no_options : Options := mkOptions None None None None None.

(** [constructor(options = {})] *)
Definition new (options : Options) : VoicePipeline :=
  {| debug := or_default_bool (opt_debug options) false;
     performanceMode := or_default_str (opt_performanceMode options) "potato";
     wakeWord := or_default_str (opt_wakeWord options) "hey-buddy";
     ttsVoice := or_default_str (opt_ttsVoice options) "M3";
     tools := default ∅ (opt_tools options);
     state := idle;
     isInitialized := false;
     isPaused := false;
     wakeWordDetector := None;
     stt := false;
     functionCaller := None;
     tts := false;
     errorListeners := 0 |}.

(** Field assignments. *)
Definition set_state (s : State) (p : VoicePipeline) :=
  mkPipeline (debug p) (performanceMode p) (wakeWord p) (ttsVoice p)
    (tools p) s (isInitialized p) (isPaused p) (wakeWordDetector p)
    (stt p) (functionCaller p) (tts p) (errorListeners p).

Definition set_isInitialized (b : bool) (p : VoicePipeline) :=
  mkPipeline (debug p) (performanceMode p) (wakeWord p) (ttsVoice p)
    (tools p) (state p) b (isPaused p) (wakeWordDetector p)
    (stt p) (functionCaller p) (tts p) (errorListeners p).

Definition set_isPaused (b : bool) (p : VoicePipeline) :=
  mkPipeline (debug p) (performanceMode p) (wakeWord p) (ttsVoice p)
    (tools p) (state p) (isInitialized p) b (wakeWordDetector p)
    (stt p) (functionCaller p) (tts p) (errorListeners p).

Definition set_wakeWordDetector (d : option Detector.WakeWordDetector)
    (p : VoicePipeline) :=
  mkPipeline (debug p) (performanceMode p) (wakeWord p) (ttsVoice p)
    (tools p) (state p) (isInitialized p) (isPaused p) d
    (stt p) (functionCaller p) (tts p) (errorListeners p).

Definition set_stt (b : bool) (p : VoicePipeline) :=
  mkPipeline (debug p) (performanceMode p) (wakeWord p) (ttsVoice p)
    (tools p) (state p) (isInitialized p) (isPaused p) (wakeWordDetector p)
    b (functionCaller p) (tts p) (errorListeners p).

Definition set_functionCaller (fc : option FunctionCaller.FunctionCaller)
    (p : VoicePipeline) :=
  mkPipeline (debug p) (performanceMode p) (wakeWord p) (ttsVoice p)
    (tools p) (state p) (isInitialized p) (isPaused p) (wakeWordDetector p)
    (stt p) fc (tts p) (errorListeners p).

Definition set_tts (b : bool) (p : VoicePipeline) :=
  mkPipeline (debug p) (performanceMode p) (wakeWord p) (ttsVoice p)
    (tools p) (state p) (isInitialized p) (isPaused p) (wakeWordDetector p)
    (stt p) (functionCaller p) b (errorListeners p).

Definition set_tools (t : gmap string FunctionCaller.Tool)
    (p : VoicePipeline) :=
  mkPipeline (debug p) (performanceMode p) (wakeWord p) (ttsVoice p)
    t (state p) (isInitialized p) (isPaused p) (wakeWordDetector p)
    (stt p) (functionCaller p) (tts p) (errorListeners p).

(** [pipeline.on('error', listener)] *)
Definition onError (p : VoicePipeline) : VoicePipeline :=
  mkPipeline (debug p) (performanceMode p) (wakeWord p) (ttsVoice p)
    (tools p) (state p) (isInitialized p) (isPaused p) (wakeWordDetector p)
    (stt p) (functionCaller p) (tts p) (S (errorListeners p)).

(** [getPerformanceConfig().functionGemmaQuantized] *)
Definition functionGemmaQuantized (mode : string) : bool :=
  negb (String.eqb mode "balanced" || String.eqb mode "quality").

(** How the four component initialisations settle. *)
Record InitIO := mkInitIO {
  init_detector : Completion unit;
  init_stt : Completion unit;
  init_fc : Completion unit;
  init_tts : Completion unit
}.

Definition init_ok : InitIO :=
  mkInitIO (Resolved tt) (Resolved tt) (Resolved tt) (Resolved tt).

(** [initialize()].  The function caller receives the pipeline's own
    [tools] object; [registerTool] below keeps both views of it equal. *)
Definition initialize (io : InitIO) (p : VoicePipeline)
  : VoicePipeline * list Event * Completion unit :=
  if isInitialized p then (p, [], Resolved tt)
  else
    let ev1 := [EvStatus "Loading wake word detector..."] in
    let d := Detector.new
               (Detector.mkOptions (Some (debug p)) (Some (wakeWord p))
                  None None) in
    match Detector.initialize (init_detector io) d with
    | Rejected e => (set_wakeWordDetector (Some d) p, ev1, Rejected e)
    | Resolved d1 =>
        let p1 := set_wakeWordDetector (Some d1) p in
        let ev2 := ev1 ++ [EvStatus "Loading speech recognition..."] in
        let p2 := set_stt true p1 in
        match init_stt io with
        | Rejected e => (p2, ev2, Rejected e)
        | Resolved _ =>
            let ev3 := ev2 ++ [EvStatus "Loading intent recognition..."] in
            let fc := FunctionCaller.new
                        (FunctionCaller.mkOptions (Some (debug p))
                           (Some (functionGemmaQuantized (performanceMode p)))
                           (Some (tools p))) in
            match FunctionCaller.initialize (init_fc io) fc with
            | Rejected e => (set_functionCaller (Some fc) p2, ev3, Rejected e)
            | Resolved fc1 =>
                let p3 := set_functionCaller (Some fc1) p2 in
                let ev4 := ev3 ++ [EvStatus "Loading text-to-speech..."] in
                let p4 := set_tts true p3 in
                match init_tts io with
                | Rejected e => (p4, ev4, Rejected e)
                | Resolved _ =>
                    (set_state idle (set_isInitialized true p4),
                     ev4 ++ [EvReady], Resolved tt)
                end
            end
        end
    end.

(** [start(audioSource)] *)
Definition start (io : InitIO) (p : VoicePipeline)
    (subs : Detector.Subscriptions) (src : Detector.SourceId)
  : VoicePipeline * Detector.Subscriptions * list Event * Completion unit :=
  match initialize io p with
  | (p1, ev1, Rejected e) => (p1, subs, ev1, Rejected e)
  | (p1, ev1, Resolved _) =>
      let p2 := set_state listening p1 in
      let ev2 := ev1 ++ [EvStateChange listening] in
      match wakeWordDetector p2 with
      | None => (p2, subs, ev2, Rejected typeError)
      | Some d =>
          match Detector.start d subs src with
          | None =>
              (p2, subs, ev2,
               Rejected (ErrorObj "Wake word detector not initialized"))
          | Some (d1, subs1) =>
              (set_wakeWordDetector (Some d1) p2, subs1, ev2, Resolved tt)
          end
      end
  end.

(** [stop()] *)
Definition stop (p : VoicePipeline) (subs : Detector.Subscriptions)
  : VoicePipeline * Detector.Subscriptions * list Event :=
  let '(p1, subs1) :=
    match wakeWordDetector p with
    | Some d =>
        let '(d1, s1) := Detector.stop d subs in
        (set_wakeWordDetector (Some d1) p, s1)
    | None => (p, subs)
    end in
  (set_state idle p1, subs1, [EvStateChange idle]).

(** [pause()] *)
Definition pause (p : VoicePipeline) : VoicePipeline :=
  set_wakeWordDetector (Detector.pause <$> wakeWordDetector p)
    (set_isPaused true p).

(** [resume()] *)
Definition resume (p : VoicePipeline) : VoicePipeline * list Event :=
  (set_state listening
     (set_wakeWordDetector (Detector.resume <$> wakeWordDetector p)
        (set_isPaused false p)),
   [EvStateChange listening]).


(** [registerTool(name, schema, handler)] *)
Definition registerTool (name : string) (s : FunctionCaller.Schema)
    (hd : FunctionCaller.Params -> FunctionCaller.HandlerOutcome)
    (p : VoicePipeline) : VoicePipeline :=
  set_functionCaller
    (FunctionCaller.registerTool name s hd <$> functionCaller p)
    (set_tools (<[name := FunctionCaller.mkTool s hd]> (tools p)) p).

(** White space removed by [String.prototype.trim] (its ASCII part). *)
Definition is_space (a : Ascii.ascii) : bool :=
  let n := Ascii.nat_of_ascii a in
  ((9 <=? n) && (n <=? 13) || (n =? 32))%nat.

Fixpoint all_space (s : string) : bool :=
  match s with
  | EmptyString => true
  | String a s' => is_space a && all_space s'
  end.

(** [!transcript || transcript.trim().length === 0] *)
Definition empty_transcript (t : option string) : bool :=
  match t with
  | Some s => all_space s
  | None => true
  end.

(** The answers of the outside world during one command cycle. *)
Record CycleIO := mkCycleIO {
  io_stt : Completion (option string);
  io_fc : FunctionCaller.ProcessIO;
  io_tts : Completion unit
}.

(** What an asynchronous pipeline method leaves behind: the pipeline, the
    events emitted, the texts handed to [tts.speak], and how the promise
    settles. *)
Record Run (A : Type) := mkRun {
  after : VoicePipeline;
  events : list Event;
  spoken : list string;
  settled : Completion A
}.
Arguments mkRun {A} after events spoken settled.
Arguments after {A} r.
Arguments events {A} r.
Arguments spoken {A} r.
Arguments settled {A} r.

(** The [catch] of [onSpeechEnd] followed by the trailing [resume()].
    [emit('error', e)] on an emitter without an ['error'] listener throws
    [e] again, out of the [catch]. *)
Definition cycle_catch (p : VoicePipeline) (evs : list Event)
    (said : list string) (e : Thrown) : Run unit :=
  if (0 <? errorListeners p)%nat then
    let '(p1, ev1) := resume p in
    mkRun p1 (evs ++ EvError e :: ev1) said (Resolved tt)
  else mkRun p evs said (Rejected e).

(** [onSpeechEnd(audio)] *)
Definition onSpeechEnd (p : VoicePipeline) (audio : option Samples)
    (io : CycleIO) : Run unit :=
  if decide (state p = recording) then
    let p1 := set_state transcribing (pause p) in
    let ev1 := [EvStateChange transcribing] in
    match (if stt p1 then io_stt io else Rejected typeError) with
    | Rejected e => cycle_catch p1 ev1 [] e
    | Resolved transcript =>
        let ev2 := ev1 ++ [EvTranscript transcript] in
        if empty_transcript transcript then
          let '(p2, ev3) := resume p1 in
          mkRun p2 (ev2 ++ ev3) [] (Resolved tt)
        else
          let p2 := set_state processing p1 in
          let ev3 := ev2 ++ [EvStateChange processing] in
          match functionCaller p2 with
          | None => cycle_catch p2 ev3 [] typeError
          | Some fc =>
              let '(fc1, r) :=
                FunctionCaller.process fc (default "" transcript)
                  (io_fc io) in
              let p3 := set_functionCaller (Some fc1) p2 in
              match r with
              | Rejected e => cycle_catch p3 ev3 [] e
              | Resolved result =>
                  let ev4 := ev3 ++ [EvIntent result] in
                  if truthy_str (FunctionCaller.response result) then
                    let p4 := set_state speaking p3 in
                    let ev5 := ev4 ++ [EvStateChange speaking] in
                    let said :=
                      [default "" (FunctionCaller.response result)] in
                    match (if tts p4 then io_tts io
                           else Rejected typeError) with
                    | Rejected e => cycle_catch p4 ev5 said e
                    | Resolved _ =>
                        let '(p5, ev6) := resume p4 in
                        mkRun p5 (ev5 ++ ev6) said (Resolved tt)
                    end
                  else
                    let '(p4, ev5) := resume p3 in
                    mkRun p4 (ev4 ++ ev5) [] (Resolved tt)
              end
          end
    end
  else mkRun p [] [] (Resolved tt).

(** The answers of the outside world during one [processText]. *)
Record TextIO := mkTextIO {
  io_init : InitIO;
  io_process : FunctionCaller.ProcessIO;
  io_speak : Completion unit
}.

(** [processText(text)] *)
Definition processText (p : VoicePipeline) (text : string) (io : TextIO)
  : Run FunctionCaller.IntentResult :=
  match initialize (io_init io) p with
  | (p1, ev1, Rejected e) => mkRun p1 ev1 [] (Rejected e)
  | (p1, ev1, Resolved _) =>
      match functionCaller p1 with
      | None => mkRun p1 ev1 [] (Rejected typeError)
      | Some fc =>
          let '(fc1, r) := FunctionCaller.process fc text (io_process io) in
          let p2 := set_functionCaller (Some fc1) p1 in
          match r with
          | Rejected e => mkRun p2 ev1 [] (Rejected e)
          | Resolved result =>
              if truthy_str (FunctionCaller.response result) then
                let said := [default "" (FunctionCaller.response result)] in
                match (if tts p2 then io_speak io
                       else Rejected typeError) with
                | Rejected e => mkRun p2 ev1 said (Rejected e)
                | Resolved _ => mkRun p2 ev1 said (Resolved result)
                end
              else mkRun p2 ev1 [] (Resolved result)
          end
      end
  end.




End Pipeline.

(** ** [core/function-caller/gemma.js]: reading the model's text *)
Module Parsing.




(** The match of [/\{[\s\S]*\}/]: from the first opening brace to the last
    closing brace after it. *)
Fixpoint from_first_open (s : string) : option string :=
  match s with
  | EmptyString => None
  | String a s' =>
      if Ascii.eqb a "{"%char then Some s else from_first_open s'
  end.

Fixpoint upto_last_close (s : string) : option string :=
  match s with
  | EmptyString => None
  | String a s' =>
      match upto_last_close s' with
      | Some t => Some (String a t)
      | None => if Ascii.eqb a "}"%char then Some (String a EmptyString) else None
      end
  end.

Definition match_braces (s : string) : option string :=
  from_first_open s ≫= upto_last_close.


Section WithEngine.

(** [JSON.parse] read as an intent object; [None] when it throws. *)
Variable JSON_parse : string -> option FunctionCaller.IntentResult.


(** [String.prototype.toLowerCase] *)
Variable toLowerCase : string -> string.

(** [String.prototype.includes] *)
Fixpoint includes (s sub : string) : bool :=
  String.prefix sub s
  || match s with
     | EmptyString => false
     | String _ s' => includes s' sub
     end.

(** The inner loop of [classifyIntent]: some keyword occurs in the text. *)
Definition keyword_hit (lowerText : string) (keywords : list string) : bool :=
  existsb (fun keyword => includes lowerText (toLowerCase keyword)) keywords.

(** [classifyIntent(text, intents)], [intents] being the entries of the
    object in their order. *)
Fixpoint classify (lowerText : string)
    (intents : list (string * list string)) : option string :=
  match intents with
  | [] => None
  | (intent, keywords) :: rest =>
      if keyword_hit lowerText keywords then Some intent
      else classify lowerText rest
  end.

Definition classifyIntent (text : string)
    (intents : list (string * list string)) : option string :=
  classify (toLowerCase text) intents.

End WithEngine.

End Parsing.

(** ** Reading a property of a parameter object *)

(** [params[k]], [params] listing the own properties of the object. *)
Definition param (k : string) (params : list (string * string))
  : option string :=
  snd <$> find (fun kv => String.eqb kv.1 k) params.

(** [Math.min] and [Math.max] on finite numbers. *)
Definition Math_min (a b : Q) : Q := if Qle_bool a b then a else b.
Definition Math_max (a b : Q) : Q := if Qle_bool a b then b else a.

(** ** [tools/definitions.js] *)
Module Definitions.

Abbreviation Handler :=
  (FunctionCaller.Params -> FunctionCaller.HandlerOutcome).

(** An entry of the registry; [handler: null] is [None]. *)
Record Entry := mkEntry {
  schema : FunctionCaller.Schema;
  handler : option Handler
}.

(** What [toLocaleTimeString] and the two [toLocaleDateString] calls of
    the [get_time] handler give for the date at which the handler runs. *)
Record Clock := mkClock {
  time : string;
  long_date : string;
  short_date : string
}.

(** The handler of [get_time]. *)
Definition get_time (now : Clock) : Handler :=
  fun params =>
    let format := or_default_str (param "format" params) "time" in
    Resolved (Some (FunctionCaller.mkToolResult
      (Some (if String.eqb format "date"
             then "Today is " +:+ long_date now
             else if String.eqb format "datetime"
             then "It's " +:+ time now +:+ " on " +:+ short_date now
             else "It's " +:+ time now))
      [])).

(** The registry [TOOLS]: for each tool the description and the types of
    the properties of its schema, and its handler. *)
Definition TOOLS (now : Clock) : gmap string Entry :=
  list_to_map
    [("play_youtube",
      mkEntry (FunctionCaller.mkSchema "Play a song or video from YouTube"
                 [("query", "string")]) None);
     ("media_control",
      mkEntry (FunctionCaller.mkSchema
                 "Control media playback (pause, resume, skip, stop, volume)"
                 [("action", "string")]) None);
     ("search_web",
      mkEntry (FunctionCaller.mkSchema "Search the web for information"
                 [("query", "string")]) None);
     ("invite_friend",
      mkEntry (FunctionCaller.mkSchema
                 "Invite a friend to play a game on Discord"
                 [("friend_name", "string"); ("game", "string")]) None);
     ("navigate",
      mkEntry (FunctionCaller.mkSchema "Start navigation to a destination"
                 [("destination", "string")]) None);
     ("get_time",
      mkEntry (FunctionCaller.mkSchema "Get the current time or date"
                 [("format", "string")]) (Some (get_time now)));
     ("set_reminder",
      mkEntry (FunctionCaller.mkSchema "Set a reminder for later"
                 [("message", "string"); ("minutes", "number")]) None);
     ("voice_channel",
      mkEntry (FunctionCaller.mkSchema "Control voice channel presence"
                 [("action", "string"); ("channel", "string")]) None)].

(** The handler that [createTools] puts where nobody provides one. *)
Definition unavailable (name : string) : Handler :=
  fun _ =>
    Resolved (Some (FunctionCaller.mkToolResult
      (Some ("Sorry, " +:+ name +:+ " is not available right now.")) [])).

(** [createTools(handlers)], over the registry [registry]. *)
Definition createTools (registry : gmap string Entry)
    (handlers : gmap string Handler) : gmap string FunctionCaller.Tool :=
  map_imap
    (fun name tool =>
       Some (FunctionCaller.mkTool (schema tool)
               (match handlers !! name with
                | Some h => h
                | None =>
                    match handler tool with
                    | Some h => h
                    | None => unavailable name
                    end
                end)))
    registry.

End Definitions.

(** ** [tools/youtube.js] *)
Module YouTube.

(** A search result of [play-dl], as far as [search] reads it:
    [v_channel_name] is [video.channel?.name] and [v_thumbnail] is
    [video.thumbnails?.[0]?.url]. *)
Record Video := mkVideo {
  v_id : option string;
  v_title : option string;
  v_channel_name : option string;
  v_durationInSec : option Z;
  v_thumbnail : option string;
  v_url : option string
}.

Record Track := mkTrack {
  id : option string;
  title : option string;
  artist : string;
  duration : option Z;
  thumbnail : option string;
  url : option string
}.

Record YouTubeTool := mkYouTube {
  debug : bool;
  currentStream : option unit;
  isPlaying : bool;
  volume : Q;
  queue : list Track;
  currentTrack : option Track
}.

Record Options := mkOptions {
  opt_debug : option bool;
  opt_volume : option Q
}.

Definition no_options : Options := mkOptions None None.

(** [constructor(options = {})] *)
Definition new (options : Options) : YouTubeTool :=
  {| debug := or_default_bool (opt_debug options) false;
     currentStream := None;
     isPlaying := false;
     volume := or_default_Q (opt_volume options) 0.5;
     queue := [];
     currentTrack := None |}.

Definition track_of (video : Video) : Track :=
  {| id := v_id video;
     title := v_title video;
     artist := or_default_str (v_channel_name video) "Unknown";
     duration := v_durationInSec video;
     thumbnail := v_thumbnail video;
     url := v_url video |}.

(** [search(query)]; [found] is how [play.search] settles. *)
Definition search (query : option string) (found : Completion (list Video))
  : Completion Track :=
  match found with
  | Rejected e => Rejected e
  | Resolved [] => Rejected (ErrorObj "No results found")
  | Resolved (video :: _) => Resolved (track_of video)
  end.

(** What [play] returns. *)
Record PlayResult := mkPlayResult {
  response : string;
  track : option Track;
  error : option string
}.

Definition dquote : string := String "034"%char EmptyString.

Definition playing (t : Track) : string :=
  "Playing " +:+ interpolate (title t) +:+ " by " +:+ artist t.

Definition not_found (query : option string) : string :=
  "Sorry, I couldn't find " +:+ dquote +:+ interpolate query +:+ dquote
  +:+ " on YouTube".

(** [play(params)] *)
Definition play (params : FunctionCaller.Params)
    (found : Completion (list Video)) (t : YouTubeTool)
  : YouTubeTool * Completion PlayResult :=
  let query := param "query" params in
  match search query found with
  | Resolved tr =>
      ({| debug := debug t;
          currentStream := currentStream t;
          isPlaying := isPlaying t;
          volume := volume t;
          queue := queue t ++ [tr];
          currentTrack := Some tr |},
       Resolved {| response := playing tr;
                   track := Some tr;
                   error := None |})
  | Rejected e =>
      match read_message e with
      | inl m =>
          (t, Resolved {| response := not_found query;
                          track := None;
                          error := m |})
      | inr e' => (t, Rejected e')
      end
  end.

(** [Math.round(volume * 100)] in a template literal. *)
Definition percent (v : Q) : string :=
  pretty (Qfloor (v * 100 + 0.5)%Q).

Definition volume_at (v : Q) : string := "Volume at " +:+ percent v +:+ "%".

Definition set_volume (v : Q) (t : YouTubeTool) : YouTubeTool :=
  {| debug := debug t;
     currentStream := currentStream t;
     isPlaying := isPlaying t;
     volume := v;
     queue := queue t;
     currentTrack := currentTrack t |}.

Definition set_isPlaying (b : bool) (t : YouTubeTool) : YouTubeTool :=
  {| debug := debug t;
     currentStream := currentStream t;
     isPlaying := b;
     volume := volume t;
     queue := queue t;
     currentTrack := currentTrack t |}.

(** [action === name] *)
Definition is_action (action : option string) (name : string) : bool :=
  match action with
  | Some a => String.eqb a name
  | None => false
  end.

(** [mediaControl(action)]: the new state and the [response]. *)
Definition mediaControl (action : option string) (t : YouTubeTool)
  : YouTubeTool * string :=
  if is_action action "pause" then (set_isPlaying false t, "Paused")
  else if is_action action "resume" then (set_isPlaying true t, "Resumed")
  else if is_action action "skip" then
    match queue t with
    | next :: rest =>
        ({| debug := debug t;
            currentStream := currentStream t;
            isPlaying := isPlaying t;
            volume := volume t;
            queue := rest;
            currentTrack := Some next |},
         "Skipping to " +:+ interpolate (title next))
    | [] => (t, "No more tracks in queue")
    end
  else if is_action action "stop" then
    ({| debug := debug t;
        currentStream := None;
        isPlaying := false;
        volume := volume t;
        queue := [];
        currentTrack := None |},
     "Stopped playback")
  else if is_action action "volume_up" then
    let v := Math_min 1 (volume t + 0.1) in (set_volume v t, volume_at v)
  else if is_action action "volume_down" then
    let v := Math_max 0 (volume t - 0.1) in (set_volume v t, volume_at v)
  else (t, "Unknown action: " +:+ interpolate action).

(** A sequence of [mediaControl] calls. *)
Definition mediaControls (actions : list (option string)) (t : YouTubeTool)
  : YouTubeTool :=
  foldl (fun t action => (mediaControl action t).1) t actions.

End YouTube.

(** ** [driving-assistant/index.js]: the media handlers *)
Module Driving.

(** What the function caller keeps of the object [play] returns: the
    response and, as the rest, the error message if there is one. *)
Definition toolResult_of (r : YouTube.PlayResult) : FunctionCaller.ToolResult :=
  FunctionCaller.mkToolResult (Some (YouTube.response r))
    (match YouTube.error r with
     | Some m => [("error", m)]
     | None => []
     end).

(** The [play_youtube] handler, on the tool [youtube]; its effect on the
    tool is that of [YouTube.play]. *)
Definition play_youtube (youtube : YouTube.YouTubeTool)
    (found : Completion (list YouTube.Video)) : Definitions.Handler :=
  fun params =>
    match (YouTube.play params found youtube).2 with
    | Resolved r => Resolved (Some (toolResult_of r))
    | Rejected e => Rejected e
    end.

(** The [media_control] handler; its effect on the tool is that of
    [YouTube.mediaControl]. *)
Definition media_control (youtube : YouTube.YouTubeTool) : Definitions.Handler :=
  fun params =>
    Resolved (Some (FunctionCaller.mkToolResult
      (Some (YouTube.mediaControl (param "action" params) youtube).2) [])).

(** The [search_web] handler. *)
Definition search_web : Definitions.Handler :=
  fun params =>
    Resolved (Some (FunctionCaller.mkToolResult
      (Some ("I'll remember to search for "
             +:+ interpolate (param "query" params) +:+ " when we stop."))
      [])).

(** The handlers handed to [createTools]; [navigate] stands for the
    handler that opens the system navigation. *)
Definition handlers (youtube : YouTube.YouTubeTool)
    (found : Completion (list YouTube.Video)) (navigate : Definitions.Handler)
  : gmap string Definitions.Handler :=
  list_to_map
    [("play_youtube", play_youtube youtube found);
     ("media_control", media_control youtube);
     ("navigate", navigate);
     ("search_web", search_web)].

End Driving.

(** ** [core/tts/supertonic.js] *)
Module TTS.

(** What [generate] returns. *)
Record Audio := mkAudio { audio : Samples; sampleRate : Z }.

(** The [Map] of cached phrases: its entries in insertion order, the
    keys distinct. *)
Abbreviation Cache := (list (string * Audio)).

Definition cache_has (key : string) (m : Cache) : bool :=
  existsb (fun kv => String.eqb kv.1 key) m.

Definition cache_get (key : string) (m : Cache) : option Audio :=
  snd <$> find (fun kv => String.eqb kv.1 key) m.

(** [Map.prototype.set]: an existing key keeps its place. *)
Fixpoint cache_set (key : string) (a : Audio) (m : Cache) : Cache :=
  match m with
  | [] => [(key, a)]
  | kv :: m' =>
      if String.eqb kv.1 key then (key, a) :: m'
      else kv :: cache_set key a m'
  end.

(** [delete(keys().next().value)]: the oldest entry goes. *)
Definition cache_delete_first (m : Cache) : Cache := tail m.

Record TextToSpeech := mkTTS {
  debug : bool;
  voice : string;
  caching : bool;
  audioCache : Cache;
  maxCacheSize : nat;
  isInitialized : bool
}.

Record Options := mkOptions {
  opt_debug : option bool;
  opt_voice : option string;
  opt_caching : option bool
}.

Definition no_options : Options := mkOptions None None None.

(** [constructor(options = {})] *)
Definition new (options : Options) : TextToSpeech :=
  {| debug := or_default_bool (opt_debug options) false;
     voice := or_default_str (opt_voice options) "M3";
     caching := match opt_caching options with
                | Some false => false
                | _ => true
                end;
     audioCache := [];
     maxCacheSize := 50;
     isInitialized := false |}.

Definition set_isInitialized (b : bool) (t : TextToSpeech) : TextToSpeech :=
  {| debug := debug t;
     voice := voice t;
     caching := caching t;
     audioCache := audioCache t;
     maxCacheSize := maxCacheSize t;
     isInitialized := b |}.

Definition set_audioCache (m : Cache) (t : TextToSpeech) : TextToSpeech :=
  {| debug := debug t;
     voice := voice t;
     caching := caching t;
     audioCache := m;
     maxCacheSize := maxCacheSize t;
     isInitialized := isInitialized t |}.

(** The answers of the outside world during one [generate]: the model
    load if one is needed, and the synthesis, from loading the voice to
    the vocoder, which throws or yields the audio. *)
Record GenerateIO := mkGenerateIO {
  io_init : Completion unit;
  io_synth : Completion Audio
}.

Definition cacheKey (voiceId text : string) : string :=
  voiceId +:+ ":" +:+ text.

(** The caching step that ends [generate]. *)
Definition remember (key : string) (result : Audio) (t : TextToSpeech)
  : TextToSpeech :=
  if caching t then
    let m := cache_set key result (audioCache t) in
    set_audioCache
      (if (maxCacheSize t <? length m)%nat then cache_delete_first m else m) t
  else t.

(** [generate(text, voiceId = null)] *)
Definition generate (text : string) (voiceId : option string)
    (io : GenerateIO) (t : TextToSpeech)
  : TextToSpeech * Completion Audio :=
  let ready :=
    if isInitialized t then Resolved t
    else match io_init io with
         | Resolved _ => Resolved (set_isInitialized true t)
         | Rejected e => Rejected e
         end in
  match ready with
  | Rejected e => (t, Rejected e)
  | Resolved t1 =>
      let key := cacheKey (or_default_str voiceId (voice t1)) text in
      match (if caching t1 then cache_get key (audioCache t1) else None) with
      | Some hit => (t1, Resolved hit)
      | None =>
          match io_synth io with
          | Resolved result => (remember key result t1, Resolved result)
          | Rejected e => (t1, Rejected e)
          end
      end
  end.

(** A sequence of [generate] calls; the promises are dropped. *)
Definition generateAll (calls : list (string * option string * GenerateIO))
    (t : TextToSpeech) : TextToSpeech :=
  foldl (fun t c => (generate c.1.1 c.1.2 c.2 t).1) t calls.

(** The part of [tts.json] that the masks read. *)
Record Config := mkConfig {
  base_chunk_size : Z;
  chunk_compress_factor : Z
}.

(** [Math.max(...lengths)], [None] standing for [-Infinity]. *)
Definition max_of (lengths : list Z) : option Z :=
  match lengths with
  | [] => None
  | l :: ls => Some (foldl Z.max l ls)
  end.

(** One row of a mask: [j < len ? 1.0 : 0.0] for [j] below [maxLen]. *)
Definition mask_row (maxLen : Z) (len : Z) : list Q :=
  map (fun j : nat => if Z.of_nat j <? len then 1%Q else 0%Q)
      (seq 0 (Z.to_nat maxLen)).

(** [lengthToMask(lengths, maxLen = null)] *)
Definition lengthToMask (lengths : list Z) (maxLen : option Z)
  : list (list (list Q)) :=
  let maxLen' :=
    match maxLen with
    | Some m => if m =? 0 then max_of lengths else Some m
    | None => max_of lengths
    end in
  map (fun len => [mask_row (default 0 maxLen') len]) lengths.

(** [getLatentMask(wavLengths)], for sample counts and a latent size that
    are integers, the latent size not zero. *)
Definition getLatentMask (config : Config) (wavLengths : list Z)
  : list (list (list Q)) :=
  let latentSize := base_chunk_size config * chunk_compress_factor config in
  let latentLengths :=
    map (fun len => (len + latentSize - 1) / latentSize) wavLengths in
  lengthToMask latentLengths None.

(** The sample that [playAudio] writes with [writeInt16LE]. *)
Definition toInt16 (sample : Q) : Z :=
  Qfloor (Math_max (-1) (Math_min 1 sample) * 32767)%Q.

End TTS.

(** ** Vocabulary of the properties *)

(** The [j]-th window of a sample stream: [W] samples starting [j * H]
    samples into it. *)
Definition window_at (W H : nat) (stream : Samples) (j : nat) : Samples :=
  take W (drop (j * H) stream).

Definition windows (W H : nat) (stream : Samples) (k : nat) : list Samples :=
  map (window_at W H stream) (seq 0 k).

(** The part of the batcher state that the loop maintains, relating the
    detector [d'] and the log reached from a sample stream. *)
Definition batched (W H : nat) (stream : Samples)
    (d d' : Detector.WakeWordDetector) (log : Detector.BatchLog) : Prop :=
  map fst log = windows W H stream (length log) /\
  Detector.audioBuffer d' = drop (length log * H) stream /\
  (length log * H <= length stream)%nat /\
  (forall j, (j < length log)%nat -> (j * H + W <= length stream)%nat) /\
  (length (Detector.audioBuffer d') < W)%nat /\
  Detector.batchSamples d' = Detector.batchSamples d /\
  Detector.batchInterval d' = Detector.batchInterval d /\
  Detector.isRunning d' = Detector.isRunning d /\
  Detector.isPaused d' = Detector.isPaused d.

Definition is_detected (ev : Detector.Event) : bool :=
  match ev with
  | Detector.EvDetected => true
  | _ => false
  end.


(** Number of ['detected'] events in a trace. *)
Definition detections (evs : list Detector.Event) : nat :=
  length (filter (fun ev => is_detected ev = true) evs).

(** What the voice-activity step of a batch reports, if its session call
    returns. *)
Definition vad_report (d : Detector.WakeWordDetector) (io : Detector.BatchIO)
  : option VAD.Output :=
  (fun r => (VAD.process (VAD.getState (Detector.vad d)).1 r).2)
    <$> Detector.io_vad io.

Definition reports_speaking (d : Detector.WakeWordDetector)
    (io : Detector.BatchIO) : bool :=
  match vad_report d io with
  | Some o => VAD.out_isSpeaking o
  | None => false
  end.

Definition reports_justEnded (d : Detector.WakeWordDetector)
    (io : Detector.BatchIO) : bool :=
  match vad_report d io with
  | Some o => VAD.justEnded o
  | None => false
  end.

(** A batch qualifies when its window is speech, its embedding fills the
    embedding window, and the classifier answers with a probability at or
    above the threshold: the batches on which the cooldown is consulted. *)
Definition qualifies (d : Detector.WakeWordDetector) (io : Detector.BatchIO)
  : bool :=
  reports_speaking d io &&
  match Detector.io_spectrogram io, Detector.io_embedding io,
        Detector.io_wakeword io with
  | Some _, Some e, Some p =>
      (Detector.embeddingFrames d
         <=? length (Detector.push_embedding (Detector.embeddingFrames d)
                       (Detector.embeddingBuffer d) e))%nat
      && num_ge p (Detector.threshold d)
  | _, _, _ => false
  end.

(** A qualifying batch is accepted when the cooldown has elapsed. *)
Definition accepted (d : Detector.WakeWordDetector) (io : Detector.BatchIO)
  : bool :=
  qualifies d io
  && (Detector.cooldownMs d
        <=? Detector.io_now io - Detector.lastWakeWordTime d).

(** ** Sample inputs *)

Definition embedding_of (x : Q) : Tensor := mkTensor [1; 1] [x].

(** A batch on which every engine answers: voice-activity score [score],
    embedding [e], wake-word probability [p], clock [t]. *)
Definition answered (score : Q) (e : Tensor) (p : Q) (t : Z)
  : Detector.BatchIO :=
  Detector.mkBatchIO (Some (VAD.mkResults VAD.zeros VAD.zeros score))
    (Some (mkTensor [1; 1] [])) (Some e) (Some p) t.

(** Sixteen windows of speech, 120 ms apart from [t0] on, each classified
    with probability [p] once the embedding window is full. *)
Definition sixteen_speech_windows (p : Q) (t0 : Z)
  : list (Samples * Detector.BatchIO) :=
  map (fun k : nat =>
         ([inject_Z (Z.of_nat k)],
          answered 0.9 (embedding_of 1) p (t0 + 120 * Z.of_nat k)))
      (seq 0 16).

(** A pipeline created without options, initialised and started on audio
    source 0, together with the listeners that the start leaves. *)
Definition started_pipeline : Pipeline.VoicePipeline * Detector.Subscriptions :=
  let r := Pipeline.start Pipeline.init_ok
             (Pipeline.new Pipeline.no_options) [] 0%nat in
  (r.1.1.1, r.1.1.2).


(** The [play_youtube] tool with a handler that settles as [outcome]. *)
Definition youtube_schema : FunctionCaller.Schema :=
  FunctionCaller.mkSchema "Play music from YouTube" [("query", "string")].

Definition with_play_youtube (outcome : FunctionCaller.HandlerOutcome)
    (p : Pipeline.VoicePipeline) : Pipeline.VoicePipeline :=
  Pipeline.registerTool "play_youtube" youtube_schema (fun _ => outcome) p.

(** What the model proposes for "play some music". *)
Definition music_intent : FunctionCaller.IntentResult :=
  FunctionCaller.mkIntent (Some "play_youtube") [("query", "some music")]
    (Some "Playing some music for you") None None None.

Definition music_model : FunctionCaller.ProcessIO :=
  FunctionCaller.mkProcessIO (Resolved tt) (Resolved music_intent).

(** Number of results of a run whose score is below the negative
    threshold of [v]. *)
Definition low_count (v : VAD.VADProcessor) (rs : list VAD.Results) : nat :=
  length (filter (fun r => num_lt (VAD.output r) (VAD.negativeThreshold v)
                           = true) rs).


(** A character occurs in a string. *)
Fixpoint has_char (c : Ascii.ascii) (s : string) : bool :=
  match s with
  | EmptyString => false
  | String a s' => Ascii.eqb a c || has_char c s'
  end.

(** First and last character of a string. *)
Definition first_char (s : string) : option Ascii.ascii :=
  match s with
  | EmptyString => None
  | String a _ => Some a
  end.

Fixpoint last_char (s : string) : option Ascii.ascii :=
  match s with
  | EmptyString => None
  | String a EmptyString => Some a
  | String _ s' => last_char s'
  end.

(** A registration handed to [registerTool]. *)
Record Registration := mkRegistration {
  reg_name : string;
  reg_schema : FunctionCaller.Schema;
  reg_handler : FunctionCaller.Params -> FunctionCaller.HandlerOutcome
}.

(** [registerTool] called for each registration in turn. *)
Definition registerAll (regs : list Registration)
    (p : Pipeline.VoicePipeline) : Pipeline.VoicePipeline :=
  foldl (fun p r =>
           Pipeline.registerTool (reg_name r) (reg_schema r) (reg_handler r) p)
        p regs.

(** All four component initialisations go through. *)
Definition all_loaded (io : Pipeline.InitIO) : Prop :=
  Pipeline.init_detector io = Resolved tt /\
  Pipeline.init_stt io = Resolved tt /\
  Pipeline.init_fc io = Resolved tt /\
  Pipeline.init_tts io = Resolved tt.

(** The handler that [createTools] chooses for an entry. *)
Definition chosen_handler (handlers : gmap string Definitions.Handler)
    (name : string) (entry : Definitions.Entry) : Definitions.Handler :=
  default (default (Definitions.unavailable name) (Definitions.handler entry))
          (handlers !! name).

Definition sample_clock : Definitions.Clock :=
  Definitions.mkClock "9:41 AM" "Monday, November 2, 2026" "Monday, November 2".

(** A volume between silence and full. *)
Definition in_range (v : Q) : Prop := (0 <= v)%Q /\ (v <= 1)%Q.

Definition sample_video : YouTube.Video :=
  YouTube.mkVideo (Some "dQw4") (Some "Blue in Green") (Some "Miles Davis")
    (Some 337) None (Some "https://youtu.be/dQw4").

(** The keys of a cache, oldest first. *)
Definition cache_keys (m : TTS.Cache) : list string := m.*1.

(** The state of a cache that [generate] maintains: no more entries than
    [maxCacheSize], under distinct keys. *)
Definition cache_ok (t : TTS.TextToSpeech) : Prop :=
  (length (TTS.audioCache t) <= TTS.maxCacheSize t)%nat /\
  NoDup (cache_keys (TTS.audioCache t)).

Definition sample_audio (x : Q) : TTS.Audio := TTS.mkAudio [x] 44100.

(** A [generate] call in which the models load and the synthesis yields
    [a]. *)
Definition synthesised (a : TTS.Audio) : TTS.GenerateIO :=
  TTS.mkGenerateIO (Resolved tt) (Resolved a).

(** A synthesiser whose cache of two entries is full. *)
Definition full_cache : TTS.TextToSpeech :=
  TTS.mkTTS false "M3" true
    [("M3:Paused", sample_audio 0); ("M3:Stopped playback", sample_audio 1)]
    2 true.

(** The number of rows of a mask and the ones and zeros of a row. *)
Definition ones_then_zeros (ones len : nat) : list Q :=
  replicate ones 1%Q ++ replicate (len - ones) 0%Q.

(** The number of latent frames that cover [len] samples: the least [k]
    with [len <= k * size]. *)
Definition covers (size len : Z) (k : nat) : Prop :=
  len <= Z.of_nat k * size /\ Z.of_nat k * size < len + size.

(** * Properties *)

(** ** Comparisons *)

Lemma num_ge_true (x y : Q) : num_ge x y = true <-> (y <= x)%Q.
Proof. unfold num_ge. apply Qle_bool_iff. Qed.

Lemma num_ge_false (x y : Q) : num_ge x y = false <-> (x < y)%Q.
Proof.
  unfold num_ge. split.
  - intros Hb. apply Qnot_le_lt. intros Hle.
    apply Qle_bool_iff in Hle. congruence.
  - intros Hlt. destruct (Qle_bool y x) eqn:E; [|reflexivity].
    apply Qle_bool_iff in E. exfalso. exact (Qlt_not_le _ _ Hlt E).
Qed.

Lemma num_lt_true (x y : Q) : num_lt x y = true <-> (x < y)%Q.
Proof.
  unfold num_lt. rewrite negb_true_iff. apply num_ge_false.
Qed.

Lemma num_lt_false (x y : Q) : num_lt x y = false <-> (y <= x)%Q.
Proof.
  unfold num_lt. rewrite negb_false_iff. apply num_ge_true.
Qed.

(** ** Voice-activity hysteresis *)

Section VADFacts.
Import VAD.

(** The three branches of [process], in the order the code tests them. *)
Lemma process_positive v r :
  num_ge (output r) (positiveThreshold v) = true ->
  isSpeaking (process v r).1 = true /\ negativeSamples (process v r).1 = 0.
Proof. intros Hp. unfold process. rewrite Hp. now cbn. Qed.

Lemma process_negative v r :
  num_ge (output r) (positiveThreshold v) = false ->
  num_lt (output r) (negativeThreshold v) = true ->
  negativeSamples (process v r).1 = negativeSamples v + 1 /\
  isSpeaking (process v r).1 =
    (if negativeCount v <=? negativeSamples v + 1 then false
     else isSpeaking v).
Proof. intros Hp Hn. unfold process. rewrite Hp, Hn. now cbn. Qed.

Lemma process_dead_zone v r :
  num_ge (output r) (positiveThreshold v) = false ->
  num_lt (output r) (negativeThreshold v) = false ->
  isSpeaking (process v r).1 = isSpeaking v /\
  negativeSamples (process v r).1 = negativeSamples v.
Proof. intros Hp Hn. unfold process. rewrite Hp, Hn. now cbn. Qed.

Lemma process_output v r :
  let o := (process v r).2 in
  probability o = output r /\
  out_isSpeaking o = isSpeaking (process v r).1 /\
  justStarted o = isSpeaking (process v r).1 && negb (isSpeaking v) /\
  justEnded o = negb (isSpeaking (process v r).1) && isSpeaking v.
Proof.
  unfold process.
  destruct (num_ge _ _); [now cbn|].
  destruct (num_lt _ _); now cbn.
Qed.

Lemma process_config v r :
  positiveThreshold (process v r).1 = positiveThreshold v /\
  negativeThreshold (process v r).1 = negativeThreshold v /\
  negativeCount (process v r).1 = negativeCount v.
Proof.
  unfold process.
  destruct (num_ge _ _); [now cbn|].
  destruct (num_lt _ _); now cbn.
Qed.

Lemma processAll_config v rs :
  positiveThreshold (processAll v rs).1 = positiveThreshold v /\
  negativeThreshold (processAll v rs).1 = negativeThreshold v /\
  negativeCount (processAll v rs).1 = negativeCount v.
Proof.
  revert v. induction rs as [|r rs IH]; intros v; [now cbn|].
  cbn [processAll].
  destruct (process v r) as [v1 o] eqn:E1.
  specialize (IH v1).
  destruct (processAll v1 rs) as [v2 os] eqn:E2. cbn in *.
  pose proof (process_config v r) as Hc. rewrite E1 in Hc. cbn in Hc.
  intuition congruence.
Qed.

Lemma processAll_snoc v rs r :
  processAll v (rs ++ [r]) =
    let '(v1, os) := processAll v rs in
    let '(v2, o) := process v1 r in
    (v2, os ++ [o]).
Proof.
  revert v. induction rs as [|r0 rs IH]; intros v.
  - cbn. now destruct (process v r).
  - cbn [processAll app]. destruct (process v r0) as [v1 o1].
    rewrite IH. destruct (processAll v1 rs) as [v2 os].
    now destruct (process v2 r).
Qed.

(** The state kept between two calls is what the earlier call
    reported. *)
Lemma processAll_last v rs o :
  last (processAll v rs).2 = Some o ->
  out_isSpeaking o = isSpeaking (processAll v rs).1.
Proof.
  destruct rs as [|r rs _] using rev_ind; [discriminate|].
  rewrite processAll_snoc.
  destruct (processAll v rs) as [v1 os].
  pose proof (process_output v1 r) as Ho.
  destruct (process v1 r) as [v2 o2]. cbn in *.
  rewrite last_snoc. intros [= <-]. tauto.
Qed.

End VADFacts.

(** C2.  For every sequence of scores fed to [process], on every window: a
    score at or above [positiveThreshold] sets [isSpeaking] and resets the
    negative streak to 0; a score below [negativeThreshold] increments the
    streak and clears [isSpeaking] once the streak has reached
    [negativeCount]; a score in between changes neither; and
    [justStarted] / [justEnded] are raised exactly on the window where
    [isSpeaking] differs from what the previous call left and reported.
    The two thresholds are ordered, as the three cases presuppose. *)
Theorem vad_process_hysteresis
    (v : VAD.VADProcessor) (pre : list VAD.Results) (r : VAD.Results) :
  (VAD.negativeThreshold v <= VAD.positiveThreshold v)%Q ->
  let before := (VAD.processAll v pre).1 in
  let after := (VAD.process before r).1 in
  let out := (VAD.process before r).2 in
  let score := VAD.output r in
  ((VAD.positiveThreshold v <= score)%Q ->
     VAD.isSpeaking after = true /\ VAD.negativeSamples after = 0) /\
  ((score < VAD.negativeThreshold v)%Q ->
     VAD.negativeSamples after = VAD.negativeSamples before + 1 /\
     VAD.isSpeaking after =
       (if VAD.negativeCount v <=? VAD.negativeSamples after then false
        else VAD.isSpeaking before)) /\
  ((VAD.negativeThreshold v <= score)%Q /\
   (score < VAD.positiveThreshold v)%Q ->
     VAD.isSpeaking after = VAD.isSpeaking before /\
     VAD.negativeSamples after = VAD.negativeSamples before) /\
  VAD.out_isSpeaking out = VAD.isSpeaking after /\
  (VAD.justStarted out = true <->
     VAD.isSpeaking before = false /\ VAD.isSpeaking after = true) /\
  (VAD.justEnded out = true <->
     VAD.isSpeaking before = true /\ VAD.isSpeaking after = false) /\
  (forall prev, last (VAD.processAll v pre).2 = Some prev ->
     VAD.out_isSpeaking prev = VAD.isSpeaking before).
Proof.
  intros Hord before after out score.
  destruct (processAll_config v pre) as (Hpos & Hneg & Hcnt).
  fold before in Hpos, Hneg, Hcnt.
  pose proof (process_output before r) as (_ & Hsp & Hjs & Hje).
  fold after out in Hsp, Hjs, Hje.
  assert (Hlow : (score < VAD.negativeThreshold v)%Q ->
            num_ge score (VAD.positiveThreshold before) = false /\
            num_lt score (VAD.negativeThreshold before) = true).
  { intros Hlt. split.
    - apply num_ge_false. rewrite Hpos. eapply Qlt_le_trans; eassumption.
    - apply num_lt_true. now rewrite Hneg. }
  split; [|split; [|split; [|split; [|split; [|split]]]]].
  - intros Hge. apply process_positive. apply num_ge_true. now rewrite Hpos.
  - intros Hlt. destruct (Hlow Hlt) as [Hp Hn].
    destruct (process_negative before r Hp Hn) as [Hs1 Hs2].
    fold after in Hs1, Hs2. now rewrite Hs1, Hs2, Hcnt.
  - intros [Hge Hlt]. apply process_dead_zone.
    + apply num_ge_false. now rewrite Hpos.
    + apply num_lt_false. now rewrite Hneg.
  - exact Hsp.
  - rewrite Hjs, andb_true_iff, negb_true_iff. tauto.
  - rewrite Hje, andb_true_iff, negb_true_iff. tauto.
  - intros prev Hlast. now apply processAll_last.
Qed.

Lemma vad_process_hysteresis_witness :
  let v := VAD.new VAD.no_options in
  let r := VAD.mkResults VAD.zeros VAD.zeros 0.9 in
  (VAD.negativeThreshold v <= VAD.positiveThreshold v)%Q /\
  VAD.isSpeaking (VAD.process (VAD.processAll v []).1 r).1 = true.
Proof.
  intros v r.
  assert (Hord : (VAD.negativeThreshold v <= VAD.positiveThreshold v)%Q)
    by (apply Qle_bool_iff; reflexivity).
  split; [exact Hord|].
  destruct (vad_process_hysteresis v [] r Hord) as [Hhigh _].
  apply Hhigh. apply Qle_bool_iff; reflexivity.
Defined.

(** The scenario of the hysteresis: speech starts on the first high score,
    survives the dead zone, and ends on the eighth low score. *)
Example vad_scenario :
  let score (q : Q) := VAD.mkResults VAD.zeros VAD.zeros q in
  let outs :=
    (VAD.processAll (VAD.new VAD.no_options)
       (score 0.1%Q :: score 0.9%Q :: score 0.5%Q
        :: repeat (score 0.1%Q) 8)).2 in
  map VAD.out_isSpeaking outs
    = [false; true; true; true; true; true; true; true; true; true; false]
  /\ map VAD.justStarted outs
    = [false; true; false; false; false; false; false; false; false; false;
       false]
  /\ map VAD.justEnded outs
    = [false; false; false; false; false; false; false; false; false; false;
       true].
Proof. vm_compute. auto. Qed.

(** ** Construction defaults *)

(** C9.  A numeric option passed as 0 is treated as omitted: the
    constructors of [VADProcessor] and [WakeWordDetector] build the same
    object as without the option, holding the built-in default (0.65, 0.4
    and 8; 0.5 and 2000), so that no construction yields a zero threshold
    or a zero cooldown. *)
Theorem zero_option_falls_back_to_default :
  (forall neg cnt,
     VAD.new (VAD.mkOptions (Some 0%Q) neg cnt)
       = VAD.new (VAD.mkOptions None neg cnt) /\
     VAD.positiveThreshold (VAD.new (VAD.mkOptions (Some 0%Q) neg cnt))
       = 0.65%Q) /\
  (forall pos cnt,
     VAD.new (VAD.mkOptions pos (Some 0%Q) cnt)
       = VAD.new (VAD.mkOptions pos None cnt) /\
     VAD.negativeThreshold (VAD.new (VAD.mkOptions pos (Some 0%Q) cnt))
       = 0.4%Q) /\
  (forall pos neg,
     VAD.new (VAD.mkOptions pos neg (Some 0))
       = VAD.new (VAD.mkOptions pos neg None) /\
     VAD.negativeCount (VAD.new (VAD.mkOptions pos neg (Some 0))) = 8) /\
  (forall dbg ww cd,
     Detector.new (Detector.mkOptions dbg ww (Some 0%Q) cd)
       = Detector.new (Detector.mkOptions dbg ww None cd) /\
     Detector.threshold (Detector.new (Detector.mkOptions dbg ww (Some 0%Q) cd))
       = 0.5%Q) /\
  (forall dbg ww th,
     Detector.new (Detector.mkOptions dbg ww th (Some 0))
       = Detector.new (Detector.mkOptions dbg ww th None) /\
     Detector.cooldownMs (Detector.new (Detector.mkOptions dbg ww th (Some 0)))
       = 2000) /\
  (forall o, ~ (VAD.positiveThreshold (VAD.new o) == 0)%Q) /\
  (forall o, ~ (Detector.threshold (Detector.new o) == 0)%Q /\
             Detector.cooldownMs (Detector.new o) <> 0).
Proof.
  assert (HQ : forall o d, ~ (d == 0)%Q -> ~ (or_default_Q o d == 0)%Q).
  { intros [q|] d Hd; cbn; [|exact Hd].
    destruct (Qeq_bool q 0) eqn:E; [exact Hd|].
    now apply Qeq_bool_neq. }
  assert (HZ : forall o d, d <> 0 -> or_default_Z o d <> 0).
  { intros [z|] d Hd; cbn; [|exact Hd].
    destruct (z =? 0) eqn:E; [exact Hd|]. now apply Z.eqb_neq. }
  do 5 (split; [intros; split; reflexivity|]).
  split; intros o.
  - apply HQ. unfold Qeq; cbn; lia.
  - split; [apply HQ; unfold Qeq; cbn; lia | apply HZ; lia].
Qed.

(** ** The detector: what a batch may touch *)

Section DetectorFacts.
Import Detector.

(** Splits [processBatch] into its exits. *)
Ltac batch_exits :=
  unfold processBatch; repeat case_match; cbn.

(** A batch leaves the configuration, the run flags and the sample ring
    alone. *)
Lemma processBatch_frame d audio io :
  let d' := (processBatch d audio io).1 in
  threshold d' = threshold d /\
  cooldownMs d' = cooldownMs d /\
  batchSamples d' = batchSamples d /\
  batchInterval d' = batchInterval d /\
  isRunning d' = isRunning d /\
  isPaused d' = isPaused d /\
  audioBuffer d' = audioBuffer d /\
  embeddingFrames d' = embeddingFrames d /\
  audioSource d' = audioSource d.
Proof. batch_exits; repeat split; reflexivity. Qed.


Lemma push_embedding_last frames buf e :
  (0 < frames)%nat ->
  last (push_embedding frames buf e) = Some e.
Proof.
  intros Hpos. unfold push_embedding.
  destruct (Nat.ltb_spec frames (length (buf ++ [e]))) as [Hlt|Hge].
  - destruct buf as [|x buf]; cbn in *; [lia|]. apply last_snoc.
  - apply last_snoc.
Qed.

End DetectorFacts.

(** ** The frame batcher *)

Section FrameBatcher.
Import Detector.

Lemma window_at_length W H stream j :
  (j * H + W <= length stream)%nat ->
  length (window_at W H stream j) = W.
Proof.
  intros Hfit. unfold window_at.
  rewrite length_take_le; [reflexivity|]. rewrite length_drop. lia.
Qed.

Lemma window_at_app W H a b j :
  (j * H + W <= length a)%nat ->
  window_at W H (a ++ b) j = window_at W H a j.
Proof.
  intros Hfit. unfold window_at.
  rewrite drop_app_le by lia.
  apply take_app_le. rewrite length_drop. lia.
Qed.

Lemma window_at_drop W H stream k j :
  window_at W H (drop (k * H) stream) j = window_at W H stream (k + j).
Proof.
  unfold window_at. rewrite drop_drop. f_equal. f_equal. lia.
Qed.

Lemma windows_lookup W H stream k j w :
  windows W H stream k !! j = Some w ->
  (j < k)%nat /\ w = window_at W H stream j.
Proof.
  unfold windows. intros Hj.
  change (map ?f ?l) with (f <$> l) in Hj.
  rewrite list_lookup_fmap in Hj.
  destruct (seq 0 k !! j) as [i|] eqn:Ei; [|discriminate].
  apply lookup_seq in Ei as [-> Hlt]. cbn in Hj.
  split; [exact Hlt | congruence].
Qed.

Lemma windows_app W H stream k1 k2 :
  windows W H stream (k1 + k2) =
    windows W H stream k1 ++ windows W H (drop (k1 * H) stream) k2.
Proof.
  unfold windows. rewrite seq_app, map_app. f_equal.
  cbn [Nat.add]. replace k1 with (k1 + 0)%nat at 1 by lia.
  rewrite <- (fmap_add_seq k1 0 k2).
  change (map ?f ?l) with (f <$> l).
  rewrite <- list_fmap_compose. apply list_fmap_ext.
  intros _ j _. cbn. rewrite window_at_drop. f_equal.
Qed.

(** What one run of the [while] loop achieves, for a hop that is
    positive and not longer than the window. *)
Lemma drain_windows fuel ios i d :
  (0 < batchInterval d <= batchSamples d)%nat ->
  (length (audioBuffer d) < fuel)%nat ->
  exists d' log,
    drain fuel ios i d = Some (d', log) /\
    map fst log
      = windows (batchSamples d) (batchInterval d) (audioBuffer d)
          (length log) /\
    audioBuffer d' = drop (length log * batchInterval d) (audioBuffer d) /\
    (length log * batchInterval d <= length (audioBuffer d))%nat /\
    (forall j, (j < length log)%nat ->
       (j * batchInterval d + batchSamples d <= length (audioBuffer d))%nat) /\
    (length (audioBuffer d') < batchSamples d)%nat /\
    batchSamples d' = batchSamples d /\
    batchInterval d' = batchInterval d /\
    isRunning d' = isRunning d /\
    isPaused d' = isPaused d.
Proof.
  revert i d. induction fuel as [|fuel IH]; intros i d HH Hfuel; [lia|].
  cbn [drain].
  destruct (Nat.leb_spec (batchSamples d) (length (audioBuffer d)))
    as [Hfull|Hshort].
  - set (d1 := set_audioBuffer (drop (batchInterval d) (audioBuffer d)) d).
    pose proof (processBatch_frame d1
                  (take (batchSamples d) (audioBuffer d)) (ios i))
      as (_ & _ & HW & HHop & Hrun & Hpau & Hbuf & _).
    destruct (processBatch d1 _ (ios i)) as [d2 evs]. cbn in *.
    destruct (IH (S i) d2) as (d3 & log & Hdr & Hwin & Hrest & Hle & Hfit
                               & Hlt & HW3 & HH3 & Hrun3 & Hpau3).
    { rewrite HW, HHop. exact HH. }
    { rewrite Hbuf, length_drop. lia. }
    rewrite Hdr. exists d3, ((take (batchSamples d) (audioBuffer d), evs) :: log).
    rewrite HW, HHop, Hbuf in *. rewrite length_drop in Hle.
    split; [reflexivity|]. cbn [length map fst].
    split.
    { change (S (length log)) with (1 + length log)%nat.
      rewrite windows_app. cbn [windows seq map app].
      f_equal. rewrite Nat.mul_1_l. exact Hwin. }
    split.
    { rewrite Hrest, drop_drop. f_equal; lia. }
    split; [lia|].
    split.
    { intros [|j] Hj; [lia|].
      specialize (Hfit j ltac:(lia)). rewrite length_drop in Hfit. lia. }
    repeat split; congruence.
  - exists d, []. cbn. rewrite drop_0.
    repeat split; try reflexivity; lia.
Qed.

Lemma windows_prefix W H a b k :
  (forall j, (j < k)%nat -> (j * H + W <= length a)%nat) ->
  windows W H (a ++ b) k = windows W H a k.
Proof.
  intros Hfit. unfold windows. apply map_ext_in.
  intros j Hj. apply in_seq in Hj. apply window_at_app, Hfit. lia.
Qed.

Lemma chunk_windows fuel ios i d chunk :
  (0 < batchInterval d <= batchSamples d)%nat ->
  isRunning d = true -> isPaused d = false ->
  (length (audioBuffer d ++ toSamples chunk) < fuel)%nat ->
  exists d' log,
    processAudioChunk fuel ios i d chunk = Some (d', log) /\
    batched (batchSamples d) (batchInterval d)
      (audioBuffer d ++ toSamples chunk) d d' log.
Proof.
  intros HH Hrun Hpau Hfuel. unfold processAudioChunk.
  rewrite Hrun, Hpau. cbn [negb orb].
  match goal with |- context [drain fuel ios i ?x] => set (d2 := x) end.
  assert (Hd2 : audioBuffer d2 = audioBuffer d ++ toSamples chunk /\
                batchSamples d2 = batchSamples d /\
                batchInterval d2 = batchInterval d /\
                isRunning d2 = isRunning d /\ isPaused d2 = isPaused d).
  { subst d2. destruct (isRecording _); cbn; auto. }
  destruct Hd2 as (Hb & HW & HHop & Hr & Hp).
  destruct (drain_windows fuel ios i d2) as (d' & log & Hdr & Hrest).
  { rewrite HW, HHop. exact HH. }
  { rewrite Hb. exact Hfuel. }
  exists d', log. split; [exact Hdr|].
  unfold batched. rewrite HW, HHop, Hb, Hr, Hp in Hrest. exact Hrest.
Qed.

Lemma chunks_windows fuel ios chunks : forall i d,
  (0 < batchInterval d <= batchSamples d)%nat ->
  isRunning d = true -> isPaused d = false ->
  (length (audioBuffer d) < batchSamples d)%nat ->
  (length (audioBuffer d ++ concat (map toSamples chunks)) < fuel)%nat ->
  exists d' log,
    processChunks fuel ios i d chunks = Some (d', log) /\
    batched (batchSamples d) (batchInterval d)
      (audioBuffer d ++ concat (map toSamples chunks)) d d' log.
Proof.
  induction chunks as [|chunk rest IH]; intros i d HH Hrun Hpau Hshort Hfuel.
  - exists d, []. cbn. rewrite app_nil_r.
    unfold batched. cbn. rewrite drop_0.
    repeat split; try reflexivity; lia.
  - cbn [processChunks map concat] in *.
    rewrite app_assoc in *. rewrite length_app in Hfuel.
    destruct (chunk_windows fuel ios i d chunk HH Hrun Hpau)
      as (d1 & log1 & Hc & Hwin1 & Hbuf1 & Hle1 & Hfit1 & Hlt1
          & HW1 & HH1 & Hrun1 & Hpau1); [lia|].
    rewrite Hc.
    set (b1 := audioBuffer d ++ toSamples chunk) in *.
    set (tl := concat (map toSamples rest)) in *.
    assert (Hstream : audioBuffer d1 ++ tl
                      = drop (length log1 * batchInterval d) (b1 ++ tl)).
    { rewrite Hbuf1. symmetry. now apply drop_app_le. }
    destruct (IH (i + length log1)%nat d1)
      as (d2 & log2 & Hp & Hwin2 & Hbuf2 & Hle2 & Hfit2 & Hlt2
          & HW2 & HH2 & Hrun2 & Hpau2).
    { rewrite HW1, HH1. exact HH. }
    { congruence. }
    { congruence. }
    { rewrite HW1. exact Hlt1. }
    { rewrite Hstream, length_drop, length_app. lia. }
    rewrite Hp. exists d2, (log1 ++ log2). split; [reflexivity|].
    rewrite HW1, HH1, Hstream in *.
    rewrite length_drop in Hle2.
    unfold batched. rewrite length_app, map_app.
    split.
    { rewrite windows_app, Hwin1, Hwin2.
      f_equal. symmetry. now apply windows_prefix. }
    split.
    { rewrite Hbuf2, drop_drop. f_equal; lia. }
    pose proof (length_app b1 tl) as Hlen.
    split; [rewrite Nat.mul_add_distr_r; lia|].
    split.
    { intros j Hj. destruct (Nat.lt_ge_cases j (length log1)) as [Hj1|Hj1].
      - specialize (Hfit1 j Hj1). lia.
      - specialize (Hfit2 (j - length log1)%nat ltac:(lia)).
        rewrite length_drop in Hfit2.
        replace j with (length log1 + (j - length log1))%nat by lia.
        rewrite Nat.mul_add_distr_r. lia. }
    repeat split; congruence.
Qed.

(** The gate in front of the batcher: a detector that is stopped or
    paused drops the chunk whole and emits nothing. *)
Lemma processAudioChunk_gated fuel ios i d chunk :
  isRunning d = false \/ isPaused d = true ->
  processAudioChunk fuel ios i d chunk = Some (d, []).
Proof.
  intros [Hstop|Hpause]; unfold processAudioChunk.
  - now rewrite Hstop.
  - rewrite Hpause. now rewrite orb_true_r.
Qed.

End FrameBatcher.

(** C3.  For every sequence of chunks pushed into [processAudioChunk] of a
    running detector, the loop finishes and the emitted windows are exactly
    the [W]-sample slices of the concatenated input taken every [H]
    samples: the [j]-th emitted window has [W] samples and starts [j * H]
    samples into the stream, a window is emitted for offset [j * H] exactly
    when it fits in the samples received (so none is skipped and none comes
    twice), and what stays buffered is the whole stream from the next
    offset on. *)
Theorem frame_batcher_stride
    (fuel : nat) (ios : nat -> Detector.BatchIO) (i : nat)
    (d : Detector.WakeWordDetector) (chunks : list Detector.Chunk) :
  (0 < Detector.batchInterval d <= Detector.batchSamples d)%nat ->
  Detector.isRunning d = true ->
  Detector.isPaused d = false ->
  (length (Detector.audioBuffer d) < Detector.batchSamples d)%nat ->
  let W := Detector.batchSamples d in
  let H := Detector.batchInterval d in
  let stream :=
    Detector.audioBuffer d ++ concat (map Detector.toSamples chunks) in
  (length stream < fuel)%nat ->
  exists d' log,
    Detector.processChunks fuel ios i d chunks = Some (d', log) /\
    (forall j w, map fst log !! j = Some w ->
       length w = W /\ w = take W (drop (j * H) stream)) /\
    (forall j, (j < length log)%nat <-> (j * H + W <= length stream)%nat) /\
    Detector.audioBuffer d' = drop (length log * H) stream.
Proof.
  intros HH Hrun Hpau Hshort W H stream Hfuel.
  destruct (chunks_windows fuel ios chunks i d HH Hrun Hpau Hshort Hfuel)
    as (d' & log & Hrun' & Hwin & Hbuf & Hle & Hfit & Hlt & _).
  fold W H stream in Hwin, Hbuf, Hle, Hfit, Hlt.
  exists d', log. split; [exact Hrun'|]. split; [|split].
  - intros j w Hj. rewrite Hwin in Hj.
    apply windows_lookup in Hj as [Hlt' ->].
    split; [|reflexivity]. apply window_at_length. now apply Hfit.
  - intros j. split; [apply Hfit|].
    intros Hj. rewrite Hbuf, length_drop in Hlt.
    destruct (Nat.lt_ge_cases j (length log)) as [|Hge]; [assumption|].
    exfalso.
    assert (length log * H <= j * H)%nat by (apply Nat.mul_le_mono_r; lia).
    lia.
  - exact Hbuf.
Qed.

Lemma frame_batcher_stride_witness :
  let d := Detector.set_isRunning true (Detector.new Detector.no_options) in
  let chunks := [Detector.FloatChunk [0.5%Q; 0.25%Q];
                 Detector.BufferChunk [Byte.x00; Byte.x40]] in
  exists d' log,
    Detector.processChunks 5 (fun _ => Detector.mkBatchIO None None None None 0)
      0 d chunks = Some (d', log) /\
    Detector.audioBuffer d' = drop (length log * Detector.batchInterval d)
                                [0.5%Q; 0.25%Q; (16384 / 32768)%Q].
Proof.
  intros d chunks.
  destruct (frame_batcher_stride 5
              (fun _ => Detector.mkBatchIO None None None None 0) 0 d chunks)
    as (d' & log & Hrun & _ & _ & Hbuf).
  - split; [apply Nat.ltb_lt | apply Nat.leb_le]; vm_compute; reflexivity.
  - reflexivity.
  - reflexivity.
  - apply Nat.ltb_lt. vm_compute. reflexivity.
  - cbn. lia.
  - exists d', log. split; [exact Hrun | exact Hbuf].
Defined.

(** The constructor's geometry: windows of 17280 samples every 1920.
    20000 samples pushed in two chunks give the two windows that fit and
    leave the stream from sample 3840 on in the buffer. *)
Example batcher_of_new_detector :
  let d := Detector.set_isRunning true (Detector.new Detector.no_options) in
  let quiet := fun _ : nat => Detector.mkBatchIO None None None None 0 in
  Z.of_nat (Detector.batchSamples d) = 17280 /\
  Z.of_nat (Detector.batchInterval d) = 1920 /\
  match Detector.processChunks (Z.to_nat 20001) quiet 0 d
          [Detector.FloatChunk (repeat 0%Q (Z.to_nat 10000));
           Detector.FloatChunk (repeat 1%Q (Z.to_nat 10000))] with
  | Some (d', log) =>
      map (fun w => Z.of_nat (length w.1)) log = [17280; 17280] /\
      Z.of_nat (length (Detector.audioBuffer d')) = 16160
  | None => False
  end.
Proof. vm_compute. repeat split. Qed.

(** ** The detector: detection, cooldown and the recording session *)

Section DetectionFacts.
Import Detector.

(** What a batch does to the detection state, in terms of [accepted]. *)
Lemma processBatch_detection d audio io :
  let r := processBatch d audio io in
  detections r.2 = (if accepted d io then 1 else 0)%nat /\
  lastWakeWordTime r.1
    = (if accepted d io then io_now io else lastWakeWordTime d) /\
  isRecording r.1 = (if accepted d io then true else isRecording d) /\
  recordingBuffer r.1
    = (if accepted d io then Some audio
       else if reports_justEnded d io then None else recordingBuffer d).
Proof.
  unfold accepted, qualifies, reports_speaking, reports_justEnded,
    vad_report, detections, processBatch.
  destruct (io_vad io) as [r|]; cbn; [|auto].
  destruct (VAD.process (VAD.getState (vad d)).1 r) as [v1 o]. cbn.
  destruct o as [pr sp js je]. cbn.
  destruct sp, js, je, (io_spectrogram io), (io_embedding io); cbn; auto;
    (destruct (_ <=? _)%nat; cbn; auto);
    (destruct (io_wakeword io); cbn; auto);
    (destruct (num_ge _ _); cbn; auto);
    (destruct (_ <=? _); cbn; auto).
Qed.



End DetectionFacts.






(** ** The embedding window *)



(** ** Resuming the detector *)

(** C10.  [resume()] from any state clears [isPaused], [isRecording] and
    [recordingBuffer].  The state it leaves does not depend on the session
    that was open, so nothing the detector does afterwards, and no
    ['speechEnd'] it emits, can carry the discarded audio. *)
Theorem resume_discards_recording (d : Detector.WakeWordDetector) :
  Detector.isPaused (Detector.resume d) = false /\
  Detector.isRecording (Detector.resume d) = false /\
  Detector.recordingBuffer (Detector.resume d) = None /\
  (forall rec buf,
     Detector.resume
       (Detector.set_recordingBuffer buf (Detector.set_isRecording rec d))
     = Detector.resume d) /\
  (forall rec buf batches,
     Detector.processBatches
       (Detector.resume
          (Detector.set_recordingBuffer buf (Detector.set_isRecording rec d)))
       batches
     = Detector.processBatches (Detector.resume d) batches) /\
  (forall rec buf fuel ios i chunks,
     Detector.processChunks fuel ios i
       (Detector.resume
          (Detector.set_recordingBuffer buf (Detector.set_isRecording rec d)))
       chunks
     = Detector.processChunks fuel ios i (Detector.resume d) chunks).
Proof.
  assert (Hsame : forall rec buf,
            Detector.resume
              (Detector.set_recordingBuffer buf
                 (Detector.set_isRecording rec d))
            = Detector.resume d) by reflexivity.
  repeat split; try reflexivity; intros; now rewrite Hsame.
Qed.

(** ** Stopping the pipeline *)



(** A pipeline started on source 0 and then on source 1 keeps, after
    [stop()], the listener it registered on source 0. *)
Example stop_leaves_earlier_listener :
  let r := Pipeline.start Pipeline.init_ok started_pipeline.1
             started_pipeline.2 1%nat in
  r.1.1.2 = [0; 1]%nat /\
  (Pipeline.stop r.1.1.1 r.1.1.2).1.2 = [0%nat].
Proof. vm_compute. repeat split. Qed.

(** ** Tool dispatch *)

Section ToolFacts.
Import FunctionCaller.


(** The dispatch of a registered tool whose handler answers with a
    response of its own. *)
Lemma execute_handler_answers fc result name tool tr answer :
  function result = Some name -> name <> "" ->
  tools fc !! name = Some tool ->
  handler tool (parameters result) = Resolved (Some tr) ->
  tr_response tr = Some answer -> answer <> "" ->
  exists res,
    execute fc result = Resolved res /\
    response res = Some answer /\ executed res = Some true.
Proof.
  intros Hf Hname Htool Hok Hresp Hans. unfold execute.
  rewrite Hf. apply String.eqb_neq in Hname. rewrite Hname. cbn.
  rewrite Htool, Hok. cbn. rewrite Hresp. cbn.
  apply String.eqb_neq in Hans. rewrite Hans. cbn.
  eexists. repeat split; reflexivity.
Qed.

Lemma process_initialized fc text io :
  isInitialized fc = true ->
  process fc text io =
    (fc, match io_model io with
         | Rejected e => process_catch e
         | Resolved result => execute fc result
         end).
Proof. intros Hi. unfold process, initialize. now rewrite Hi. Qed.

End ToolFacts.

(** ** The command cycle *)



(** ** Text commands *)

(** C7 (as amended).  [processText] on an initialised pipeline whose model
    names a registered tool, the handler of which returns a non-empty
    [response], hands that response to [tts.speak] in place of the model's
    proposal and resolves with it.  It never assigns the pipeline state:
    the pipeline is in [listening] afterwards only if it was before the
    call. *)
Theorem processText_speaks_tool_response
    (p : Pipeline.VoicePipeline) (text : string) (io : Pipeline.TextIO)
    (fc : FunctionCaller.FunctionCaller)
    (result : FunctionCaller.IntentResult) (name : string)
    (tool : FunctionCaller.Tool) (tr : FunctionCaller.ToolResult)
    (answer : string) :
  Pipeline.isInitialized p = true ->
  Pipeline.tts p = true ->
  Pipeline.functionCaller p = Some fc ->
  FunctionCaller.isInitialized fc = true ->
  FunctionCaller.io_model (Pipeline.io_process io) = Resolved result ->
  FunctionCaller.function result = Some name ->
  name <> "" ->
  FunctionCaller.tools fc !! name = Some tool ->
  FunctionCaller.handler tool (FunctionCaller.parameters result)
    = Resolved (Some tr) ->
  FunctionCaller.tr_response tr = Some answer ->
  answer <> "" ->
  Pipeline.io_speak io = Resolved tt ->
  let r := Pipeline.processText p text io in
  Pipeline.state (Pipeline.after r) = Pipeline.state p /\
  Pipeline.spoken r = [answer] /\
  exists res,
    Pipeline.settled r = Resolved res /\
    FunctionCaller.response res = Some answer /\
    FunctionCaller.executed res = Some true.
Proof.
  intros Hinit Htts Hfc Hfci Hmodel Hfun Hname Htool Hok Hresp Hans Hspeak r.
  destruct (execute_handler_answers fc result name tool tr answer
              Hfun Hname Htool Hok Hresp Hans) as (res & Hexec & Hr & Hex).
  assert (Htruthy : truthy_str (FunctionCaller.response res) = true).
  { rewrite Hr. cbn. apply String.eqb_neq in Hans. now rewrite Hans. }
  subst r. unfold Pipeline.processText, Pipeline.initialize.
  rewrite Hinit, Hfc, (process_initialized fc _ _ Hfci), Hmodel, Hexec,
    Htruthy.
  cbn [Pipeline.tts Pipeline.set_functionCaller]. rewrite Htts, Hspeak, Hr.
  cbn. repeat split. exists res. auto.
Qed.

Lemma processText_speaks_tool_response_witness :
  let answer := FunctionCaller.mkToolResult (Some "Playing X") [] in
  let p := with_play_youtube (Resolved (Some answer)) started_pipeline.1 in
  let io := Pipeline.mkTextIO Pipeline.init_ok music_model (Resolved tt) in
  let r := Pipeline.processText p "play some music" io in
  Pipeline.state p = Pipeline.listening /\
  Pipeline.state (Pipeline.after r) = Pipeline.listening /\
  Pipeline.spoken r = ["Playing X"].
Proof.
  intros answer p io r.
  pose (fc := default (FunctionCaller.new
                         (FunctionCaller.mkOptions None None None))
                (Pipeline.functionCaller p)).
  pose (tool := FunctionCaller.mkTool youtube_schema
                  (fun _ => Resolved (Some answer))).
  pose proof (processText_speaks_tool_response p "play some music" io fc
                music_intent "play_youtube" tool answer "Playing X"
                ltac:(reflexivity) ltac:(reflexivity)
                ltac:(vm_compute; reflexivity) ltac:(vm_compute; reflexivity)
                ltac:(reflexivity) ltac:(reflexivity) ltac:(discriminate)
                ltac:(vm_compute; reflexivity) ltac:(reflexivity)
                ltac:(reflexivity) ltac:(discriminate) ltac:(reflexivity))
    as (Hs & Hsp & _).
  split; [reflexivity|]. split; [exact Hs | exact Hsp].
Defined.

(** A pipeline that is initialised and never started is [idle]; after
    [processText("play some music")] with [play_youtube] registered and
    answering "Playing X", that text is spoken and the pipeline is still
    [idle], not [listening]. *)
Lemma processText_leaves_idle :
  let answer := FunctionCaller.mkToolResult (Some "Playing X") [] in
  let p := with_play_youtube (Resolved (Some answer))
             (Pipeline.initialize Pipeline.init_ok
                (Pipeline.new Pipeline.no_options)).1.1 in
  let io := Pipeline.mkTextIO Pipeline.init_ok music_model (Resolved tt) in
  let r := Pipeline.processText p "play some music" io in
  Pipeline.isInitialized p = true /\
  Pipeline.spoken r = ["Playing X"] /\
  Pipeline.state (Pipeline.after r) = Pipeline.idle /\
  Pipeline.state (Pipeline.after r) <> Pipeline.listening.
Proof. vm_compute. repeat split; discriminate. Qed.

(** * Further properties of the code *)

(** ** Voice activity: streak, edges and reset *)

Section VADMore.
Import VAD.

Lemma low_count_cons v r rs :
  low_count v (r :: rs) =
    ((if num_lt (output r) (negativeThreshold v) then 1 else 0)
     + low_count v rs)%nat.
Proof.
  unfold low_count. rewrite filter_cons.
  destruct (num_lt (output r) (negativeThreshold v)) eqn:E.
  - rewrite decide_True by reflexivity. reflexivity.
  - rewrite decide_False by discriminate. reflexivity.
Qed.

Lemma low_count_config v v' rs :
  negativeThreshold v' = negativeThreshold v ->
  low_count v' rs = low_count v rs.
Proof. unfold low_count. now intros ->. Qed.

(** A run without any score at or above the positive threshold. *)
Lemma processAll_no_high rs : forall v,
  Forall (fun r => num_ge (output r) (positiveThreshold v) = false) rs ->
  let v' := (processAll v rs).1 in
  negativeSamples v' = negativeSamples v + Z.of_nat (low_count v rs) /\
  isSpeaking v' =
    (if (low_count v rs =? 0)%nat then isSpeaking v
     else isSpeaking v && negb (negativeCount v <=? negativeSamples v')) /\
  Forall (fun o => justStarted o = false) (processAll v rs).2.
Proof.
  induction rs as [|r rs IH]; intros v Hall; cbn zeta.
  - cbn. repeat split; [lia | constructor].
  - apply Forall_cons in Hall as [Hr Hall].
    cbn [processAll].
    pose proof (process_config v r) as (Hp & Hn & Hc).
    pose proof (process_output v r) as (_ & Hsp & Hjs & _).
    assert (Hstep :
      negativeSamples (process v r).1 =
        negativeSamples v
        + (if num_lt (output r) (negativeThreshold v) then 1 else 0) /\
      isSpeaking (process v r).1 =
        (if num_lt (output r) (negativeThreshold v)
         then (if negativeCount v <=? negativeSamples v + 1 then false
               else isSpeaking v)
         else isSpeaking v)).
    { destruct (num_lt (output r) (negativeThreshold v)) eqn:El.
      - destruct (process_negative v r Hr El) as [H1 H2]. now rewrite H1, H2.
      - destruct (process_dead_zone v r Hr El) as [H1 H2].
        rewrite H1, H2. split; [lia | reflexivity]. }
    destruct Hstep as [Hneg Hspk].
    destruct (process v r) as [v1 o] eqn:E1. cbn [fst snd] in *.
    destruct (IH v1) as (IHn & IHs & IHj).
    { rewrite Hp. exact Hall. }
    destruct (processAll v1 rs) as [v2 os] eqn:E2. cbn [fst snd] in *.
    rewrite (low_count_config v v1 rs Hn) in IHn, IHs.
    rewrite low_count_cons. rewrite Hc in IHs.
    split; [|split].
    + rewrite IHn, Hneg.
      destruct (num_lt (output r) (negativeThreshold v)); cbn; lia.
    + rewrite IHs, Hspk. rewrite IHn, Hneg.
      destruct (num_lt (output r) (negativeThreshold v)); cbn [Nat.add].
      * destruct (low_count v rs) as [|k] eqn:Ek; cbn [Nat.eqb].
        -- replace (negativeSamples v + 1 + Z.of_nat 0)
             with (negativeSamples v + 1) by lia.
           destruct (negativeCount v <=? negativeSamples v + 1);
             destruct (isSpeaking v); reflexivity.
        -- destruct (Z.leb_spec (negativeCount v) (negativeSamples v + 1));
             destruct (Z.leb_spec (negativeCount v)
                         (negativeSamples v + 1 + Z.of_nat (S k)));
             destruct (isSpeaking v); cbn; try reflexivity; lia.
      * destruct (low_count v rs) as [|k]; cbn [Nat.eqb Nat.add];
          [reflexivity|].
        replace (negativeSamples v + 0 + Z.of_nat (S k))
          with (negativeSamples v + Z.of_nat (S k)) by lia.
        reflexivity.
    + constructor; [|exact IHj].
      rewrite Hjs, Hspk.
      destruct (num_lt (output r) (negativeThreshold v));
        destruct (negativeCount v <=? negativeSamples v + 1);
        destruct (isSpeaking v); reflexivity.
Qed.

End VADMore.

(** X1.  In a run of windows none of which scores at or above the positive
    threshold, the negative streak grows by one on every score below the
    negative threshold and is not reset by the scores in between: speech
    that was going on has ended exactly when the number of low windows,
    consecutive or not, has brought the streak to [negativeCount], and no
    window of the run raises [justStarted]. *)
Theorem vad_streak_survives_dead_zone
    (v : VAD.VADProcessor) (rs : list VAD.Results) :
  Forall (fun r => (VAD.output r < VAD.positiveThreshold v)%Q) rs ->
  let v' := (VAD.processAll v rs).1 in
  VAD.negativeSamples v'
    = VAD.negativeSamples v + Z.of_nat (low_count v rs) /\
  VAD.isSpeaking v' =
    (if (low_count v rs =? 0)%nat then VAD.isSpeaking v
     else VAD.isSpeaking v
          && negb (VAD.negativeCount v <=? VAD.negativeSamples v')) /\
  Forall (fun o => VAD.justStarted o = false) (VAD.processAll v rs).2.
Proof.
  intros Hall. apply processAll_no_high.
  eapply Forall_impl; [exact Hall|]. intros r Hr. now apply num_ge_false.
Qed.

Lemma vad_streak_survives_dead_zone_witness :
  let score (q : Q) := VAD.mkResults VAD.zeros VAD.zeros q in
  let v := (VAD.processAll (VAD.new VAD.no_options) [score 0.9%Q]).1 in
  let rs := [score 0.1%Q; score 0.5%Q; score 0.1%Q; score 0.6%Q;
             score 0.1%Q; score 0.1%Q; score 0.5%Q; score 0.1%Q;
             score 0.1%Q; score 0.1%Q; score 0.1%Q] in
  VAD.isSpeaking v = true /\
  VAD.isSpeaking (VAD.processAll v rs).1 =
    (if (low_count v rs =? 0)%nat then VAD.isSpeaking v
     else VAD.isSpeaking v
          && negb (VAD.negativeCount v
                     <=? VAD.negativeSamples (VAD.processAll v rs).1)).
Proof.
  intros score v rs. split; [reflexivity|].
  assert (Hall : Forall (fun r => (VAD.output r < VAD.positiveThreshold v)%Q)
                   rs).
  { repeat constructor. }
  exact (proj1 (proj2 (vad_streak_survives_dead_zone v rs Hall))).
Defined.

(** X2.  The edges of [process] sit on the threshold crossings:
    [justStarted] is raised only by a score at or above the positive
    threshold, [justEnded] only by a score below both thresholds that
    brings the streak to [negativeCount], and never both on one window. *)
Theorem vad_edges_at_crossings (v : VAD.VADProcessor) (r : VAD.Results) :
  let out := (VAD.process v r).2 in
  (VAD.justStarted out = true ->
     (VAD.positiveThreshold v <= VAD.output r)%Q /\
     VAD.isSpeaking v = false) /\
  (VAD.justEnded out = true ->
     (VAD.output r < VAD.positiveThreshold v)%Q /\
     (VAD.output r < VAD.negativeThreshold v)%Q /\
     VAD.negativeCount v <= VAD.negativeSamples v + 1 /\
     VAD.isSpeaking v = true) /\
  (VAD.justStarted out && VAD.justEnded out = false).
Proof.
  intros out. subst out. unfold VAD.process.
  destruct (num_ge (VAD.output r) (VAD.positiveThreshold v)) eqn:Ep; cbn.
  - apply num_ge_true in Ep. repeat split; try discriminate.
    + exact Ep.
    + now destruct (VAD.isSpeaking v).
    + now destruct (VAD.isSpeaking v).
  - apply num_ge_false in Ep.
    destruct (num_lt (VAD.output r) (VAD.negativeThreshold v)) eqn:En; cbn.
    + apply num_lt_true in En.
      destruct (Z.leb_spec (VAD.negativeCount v) (VAD.negativeSamples v + 1));
        destruct (VAD.isSpeaking v); cbn; repeat split;
        try discriminate; auto.
    + destruct (VAD.isSpeaking v); cbn; repeat split; discriminate.
Qed.

(** X3.  [reset()] forgets the run: after any sequence of windows the
    reset processor is the one a reset would have given at the start, not
    speaking, with an empty streak and no recurrent state, and it keeps
    the thresholds it was built with. *)
Theorem vad_reset_forgets_run (v : VAD.VADProcessor) (rs : list VAD.Results) :
  VAD.reset (VAD.processAll v rs).1 = VAD.reset v /\
  VAD.isSpeaking (VAD.reset v) = false /\
  VAD.negativeSamples (VAD.reset v) = 0 /\
  VAD.h (VAD.reset v) = None /\ VAD.c (VAD.reset v) = None /\
  forall rs', VAD.processAll (VAD.reset (VAD.processAll v rs).1) rs'
              = VAD.processAll (VAD.reset v) rs'.
Proof.
  assert (Hkeep : forall rs v,
            VAD.wasSpseaking (VAD.processAll v rs).1 = VAD.wasSpseaking v).
  { clear. induction rs as [|r rs IH]; intros v; [reflexivity|].
    cbn [VAD.processAll]. specialize (IH (VAD.process v r).1).
    destruct (VAD.process v r) as [v1 o] eqn:E. cbn in IH.
    destruct (VAD.processAll v1 rs) as [v2 os]. cbn in *. rewrite IH.
    unfold VAD.process in E.
    destruct (num_ge _ _); [|destruct (num_lt _ _)];
      injection E as <- _; reflexivity. }
  assert (Hsame : VAD.reset (VAD.processAll v rs).1 = VAD.reset v).
  { destruct (processAll_config v rs) as (Hp & Hn & Hc).
    unfold VAD.reset. now rewrite Hp, Hn, Hc, Hkeep. }
  repeat split; try reflexivity; [exact Hsame|].
  intros rs'. now rewrite Hsame.
Qed.

(** ** The detector: decoding, recording and warm-up *)

Section DetectorMore.
Import Detector.

Lemma readInt16LE_range lo hi :
  -32768 <= readInt16LE lo hi <= 32767 /\
  (readInt16LE lo hi) mod 65536
    = Z.of_N (Byte.to_N lo) + 256 * Z.of_N (Byte.to_N hi).
Proof.
  unfold readInt16LE.
  pose proof (Byte.to_N_bounded lo) as Hlo.
  pose proof (Byte.to_N_bounded hi) as Hhi.
  set (u := Z.of_N (Byte.to_N lo) + 256 * Z.of_N (Byte.to_N hi)).
  assert (Hu : 0 <= u < 65536) by (subst u; lia).
  destruct (Z.ltb_spec u 32768).
  - split; [lia|]. apply Z.mod_small. lia.
  - split; [lia|].
    replace (u - 65536) with (u + (-1) * 65536) by lia.
    rewrite Z.mod_add by lia. apply Z.mod_small. lia.
Qed.

Lemma pcm_sample_range z :
  -32768 <= z <= 32767 ->
  (-1 <= inject_Z z / 32768)%Q /\ (inject_Z z / 32768 < 1)%Q.
Proof.
  intros Hz. unfold Qle, Qlt, Qdiv, Qmult, Qinv, inject_Z. cbn. lia.
Qed.

Lemma pcm16_facts n : forall bytes,
  (length bytes <= n)%nat ->
  length (pcm16 bytes) = (length bytes / 2)%nat /\
  Forall (fun s => (-1 <= s)%Q /\ (s < 1)%Q) (pcm16 bytes).
Proof.
  induction n as [n IH] using lt_wf_ind. intros bytes Hlen.
  destruct bytes as [|lo [|hi rest]]; cbn [pcm16].
  - split; [reflexivity | constructor].
  - split; [reflexivity | constructor].
  - destruct (IH (length rest) ltac:(cbn in Hlen; lia) rest (le_n _))
      as [Hl Hr].
    split.
    + cbn [length]. rewrite Hl.
      change (S (S (length rest))) with (1 * 2 + length rest)%nat.
      rewrite Nat.div_add_l by lia. reflexivity.
    + constructor; [|exact Hr].
      apply pcm_sample_range. apply readInt16LE_range.
Qed.




Lemma processBatch_embedding_grows d audio io :
  (length (embeddingBuffer (processBatch d audio io).1)
     <= S (length (embeddingBuffer d)))%nat.
Proof.
  assert (Hpush : forall e,
            (length (push_embedding (embeddingFrames d) (embeddingBuffer d) e)
               <= S (length (embeddingBuffer d)))%nat).
  { intros e. unfold push_embedding.
    destruct (_ <? _)%nat.
    - destruct (embeddingBuffer d); cbn; rewrite ?length_app; cbn; lia.
    - rewrite length_app. cbn. lia. }
  unfold processBatch. repeat case_match; cbn; try lia; apply Hpush.
Qed.

Lemma accepted_needs_full d io :
  accepted d io = true ->
  (embeddingFrames d <= S (length (embeddingBuffer d)))%nat.
Proof.
  unfold accepted, qualifies. intros H.
  apply andb_true_iff in H as [H _]. apply andb_true_iff in H as [_ H].
  destruct (io_spectrogram io); [|discriminate].
  destruct (io_embedding io) as [e|]; [|discriminate].
  destruct (io_wakeword io); [|discriminate].
  apply andb_true_iff in H as [H _]. apply Nat.leb_le in H.
  unfold push_embedding in H.
  destruct (_ <? _)%nat.
  - destruct (embeddingBuffer d); cbn in *; rewrite ?length_app in H;
      cbn in H; lia.
  - rewrite length_app in H. cbn in H. lia.
Qed.

Lemma processBatches_warm_up batches : forall d k evs,
  (processBatches d batches).2 !! k = Some evs ->
  (S (length (embeddingBuffer d) + k) < embeddingFrames d)%nat ->
  detections evs = 0%nat.
Proof.
  induction batches as [|[a io] rest IH]; intros d k evs; [discriminate|].
  cbn [processBatches].
  pose proof (processBatch_detection d a io) as (Hn & _).
  pose proof (processBatch_embedding_grows d a io) as Hg.
  pose proof (processBatch_frame d a io) as (_ & _ & _ & _ & _ & _ & _ & Hf & _).
  destruct (processBatch d a io) as [d1 e1]. cbn [fst snd] in *.
  specialize (IH d1).
  destruct (processBatches d1 rest) as [d2 log]. cbn [fst snd] in *.
  destruct k as [|k]; cbn.
  - intros [= <-] Hk. rewrite Hn.
    destruct (accepted d io) eqn:Ea; [|reflexivity].
    apply accepted_needs_full in Ea. lia.
  - intros Hlook Hk. apply (IH k evs Hlook). rewrite Hf. lia.
Qed.

End DetectorMore.

(** X4.  Decoding a 16-bit PCM buffer: every pair of bytes gives one
    sample, a trailing odd byte gives none, each sample lies in [-1, 1),
    and the integer read from a pair is the two's-complement reading of
    its little-endian value. *)
Theorem pcm16_samples_in_range (bytes : list Byte.byte) :
  length (Detector.pcm16 bytes) = (length bytes / 2)%nat /\
  Forall (fun s => (-1 <= s)%Q /\ (s < 1)%Q) (Detector.pcm16 bytes) /\
  forall lo hi,
    -32768 <= Detector.readInt16LE lo hi <= 32767 /\
    (Detector.readInt16LE lo hi) mod 65536
      = Z.of_N (Byte.to_N lo) + 256 * Z.of_N (Byte.to_N hi).
Proof.
  destruct (pcm16_facts (length bytes) bytes (le_n _)) as [Hl Hr].
  split; [exact Hl|]. split; [exact Hr|]. apply readInt16LE_range.
Qed.




(** X6.  A detector whose embedding window is empty needs
    [embeddingFrames] windows before it can detect anything: whatever the
    engines answer, none of the first [embeddingFrames - 1] batches emits
    ['detected']. *)
Theorem no_detection_during_warm_up
    (d : Detector.WakeWordDetector)
    (batches : list (Samples * Detector.BatchIO))
    (k : nat) (evs : list Detector.Event) :
  Detector.embeddingBuffer d = [] ->
  (Detector.processBatches d batches).2 !! k = Some evs ->
  (S k < Detector.embeddingFrames d)%nat ->
  detections evs = 0%nat.
Proof.
  intros Hempty Hk Hlt.
  apply (processBatches_warm_up batches d k evs Hk).
  rewrite Hempty. cbn. lia.
Qed.

Lemma no_detection_during_warm_up_witness :
  let d := Detector.new Detector.no_options in
  let log := (Detector.processBatches d
                (sixteen_speech_windows 0.9 10000)).2 in
  detections (default [] (log !! 14%nat)) = 0%nat /\
  detections (default [] (log !! 15%nat)) = 1%nat.
Proof.
  intros d log. split; [|vm_compute; reflexivity].
  apply (no_detection_during_warm_up d (sixteen_speech_windows 0.9 10000)
           14%nat (default [] (log !! 14%nat))).
  - reflexivity.
  - vm_compute. reflexivity.
  - apply Nat.ltb_lt. vm_compute. reflexivity.
Defined.

(** ** Reading the model's text *)

Section ParsingFacts.
Import Parsing.

Lemma has_char_app c s t :
  has_char c (s +:+ t) = has_char c s || has_char c t.
Proof.
  induction s as [|a s IH]; [reflexivity|].
  simpl. now rewrite IH, orb_assoc.
Qed.

Lemma from_first_open_some s t :
  from_first_open s = Some t ->
  exists pre, s = pre +:+ t /\ has_char "{" pre = false /\
              first_char t = Some "{"%char.
Proof.
  induction s as [|a s IH]; cbn; [discriminate|].
  destruct (Ascii.eqb a "{") eqn:Ea.
  - intros [= <-]. exists EmptyString. cbn.
    apply Ascii.eqb_eq in Ea. subst a. auto.
  - intros Ht. destruct (IH Ht) as (pre & -> & Hpre & Hf).
    exists (String a pre). cbn. rewrite Ea, Hpre. auto.
Qed.

Lemma upto_last_close_none s :
  upto_last_close s = None <-> has_char "}" s = false.
Proof.
  induction s as [|a s IH]; cbn; [tauto|].
  destruct (upto_last_close s) as [t|].
  - split; [discriminate|]. intros H. apply orb_false_iff in H as [_ H].
    apply IH in H. discriminate.
  - destruct (Ascii.eqb a "}"); cbn.
    + split; discriminate.
    + split; [intros _; now apply IH | reflexivity].
Qed.

Lemma upto_last_close_some s j :
  upto_last_close s = Some j ->
  exists post, s = j +:+ post /\ has_char "}" post = false /\
               last_char j = Some "}"%char.
Proof.
  revert j. induction s as [|a s IH]; cbn; [discriminate|]. intros j.
  destruct (upto_last_close s) as [t|] eqn:Et.
  - intros [= <-]. destruct (IH t eq_refl) as (post & -> & Hpost & Hl).
    exists post. cbn. repeat split; try assumption.
    destruct t; [discriminate | exact Hl].
  - destruct (Ascii.eqb a "}") eqn:Ea; [|discriminate].
    intros [= <-]. exists s. cbn.
    apply Ascii.eqb_eq in Ea. subst a.
    repeat split. now apply upto_last_close_none.
Qed.

Lemma match_braces_cons a s :
  match_braces (String a s) =
    if Ascii.eqb a "{" then upto_last_close (String a s)
    else match_braces s.
Proof. unfold match_braces. cbn. now destruct (Ascii.eqb a "{"). Qed.

Lemma match_braces_none s :
  match_braces s = None <->
  forall pre t, s = pre +:+ String "{" t -> has_char "}" t = false.
Proof.
  induction s as [|a s IH].
  - split; [|reflexivity]. intros _ [|b pre] t; discriminate.
  - rewrite match_braces_cons. destruct (Ascii.eqb a "{") eqn:Ea.
    + apply Ascii.eqb_eq in Ea. subst a.
      rewrite upto_last_close_none. simpl has_char.
      split.
      * intros Hno pre t Hs. destruct pre as [|b pre]; simpl in Hs.
        -- injection Hs as <-. exact Hno.
        -- injection Hs as _ Hs. subst s.
           rewrite has_char_app in Hno. simpl in Hno.
           apply orb_false_iff in Hno as [_ Hno]. exact Hno.
      * intros Hall. exact (Hall EmptyString s eq_refl).
    + rewrite IH. split.
      * intros Hall pre t Hs. destruct pre as [|b pre]; simpl in Hs.
        -- injection Hs as -> _. rewrite Ascii.eqb_refl in Ea. discriminate.
        -- injection Hs as _ Hs. now apply (Hall pre t).
      * intros Hall pre t ->. apply (Hall (String a pre) t). reflexivity.
Qed.





Lemma includes_spec s sub :
  includes s sub = true <-> exists pre post, s = pre +:+ sub +:+ post.
Proof.
  assert (Hpre : forall sub s,
            String.prefix sub s = true <-> exists post, s = sub +:+ post).
  { clear. induction sub as [|a sub IH]; intros s.
    - split; [intros _; exists s; reflexivity | intros _; now destruct s].
    - destruct s as [|b s]; [split; [discriminate | intros [? [=]]]|].
      simpl. destruct (IH s) as [I1 I2].
      destruct (Ascii.ascii_dec a b) as [->|Hne].
      + split.
        * intros H. destruct (I1 H) as [post ->]. exists post. reflexivity.
        * intros [post [= ->]]. apply I2. eauto.
      + split; [discriminate | intros [post [= ? ?]]; congruence]. }
  induction s as [|b s IH]; cbn [includes].
  - rewrite orb_false_r, Hpre. split.
    + intros [post H]. exists EmptyString, post. exact H.
    + intros ([|? ?] & post & H); [exists post; exact H | discriminate].
  - rewrite orb_true_iff, Hpre, IH. split.
    + intros [[post H]|(pre & post & H)].
      * exists EmptyString, post. exact H.
      * exists (String b pre), post. cbn. now rewrite H.
    + intros ([|c pre] & post & H).
      * left. exists post. exact H.
      * right. cbn in H. injection H as -> H. exists pre, post. exact H.
Qed.

End ParsingFacts.

(** X7.  The text handed to [JSON.parse] by [parseResponse] runs from the
    first opening brace of the reply to its last closing brace: nothing
    before it holds an opening brace, nothing after it a closing one; and
    there is no such text exactly when no closing brace follows an opening
    one. *)
Theorem match_braces_first_to_last (s : string) :
  (forall json, Parsing.match_braces s = Some json ->
     exists pre post,
       s = pre +:+ json +:+ post /\
       has_char "{" pre = false /\ has_char "}" post = false /\
       first_char json = Some "{"%char /\
       last_char json = Some "}"%char) /\
  (Parsing.match_braces s = None <->
   forall pre t, s = pre +:+ String "{" t -> has_char "}" t = false).
Proof.
  split; [|apply match_braces_none].
  intros json. unfold Parsing.match_braces.
  destruct (Parsing.from_first_open s) as [t|] eqn:Et; [|discriminate].
  cbn. intros Hj.
  destruct (from_first_open_some s t Et) as (pre & -> & Hpre & Hf).
  destruct (upto_last_close_some t json Hj) as (post & -> & Hpost & Hl).
  exists pre, post. repeat split; try assumption.
  destruct json; [discriminate | exact Hf].
Qed.



(** X9.  [classifyIntent] answers with the first intent, in the order of
    the entries, one of whose keywords occurs in the lower-cased text, and
    with [null] exactly when no keyword of any intent occurs in it; a
    keyword occurs when the text is some prefix, the keyword, and some
    suffix. *)
Theorem classifyIntent_first_match
    (toLowerCase : string -> string) (text : string)
    (intents : list (string * list string)) :
  let hit := Parsing.keyword_hit toLowerCase (toLowerCase text) in
  (forall intent,
     Parsing.classifyIntent toLowerCase text intents = Some intent <->
     exists pre keywords post,
       intents = pre ++ (intent, keywords) :: post /\
       hit keywords = true /\
       Forall (fun entry => hit entry.2 = false) pre) /\
  (Parsing.classifyIntent toLowerCase text intents = None <->
   Forall (fun entry => hit entry.2 = false) intents) /\
  (forall keywords,
     hit keywords = true <->
     exists keyword pre post,
       keyword ∈ keywords /\
       toLowerCase text = pre +:+ toLowerCase keyword +:+ post).
Proof.
  intros hit. unfold Parsing.classifyIntent. fold hit.
  split; [|split].
  - intros intent. induction intents as [|[i kws] rest IH]; cbn.
    + split; [discriminate|]. intros ([|? ?] & ? & ? & H & _); discriminate.
    + fold hit. destruct (hit kws) eqn:Eh.
      * split.
        -- intros [= <-]. exists [], kws, rest. repeat split; auto.
        -- intros ([|[i0 k0] pre] & kws' & post & H & Hh & Hpre).
           ++ cbn in H. congruence.
           ++ cbn in H. injection H as -> -> _.
              apply Forall_cons in Hpre as [Hno _]. cbn [snd] in Hno. congruence.
      * rewrite IH. split.
        -- intros (pre & kws' & post & -> & Hh & Hpre).
           exists ((i, kws) :: pre), kws', post.
           repeat split; auto.
        -- intros ([|[i0 k0] pre] & kws' & post & H & Hh & Hpre).
           ++ cbn in H. congruence.
           ++ cbn in H. injection H as _ _ ->.
              apply Forall_cons in Hpre as [_ Hpre].
              exists pre, kws', post. auto.
  - induction intents as [|[i kws] rest IH]; cbn.
    + split; [constructor | reflexivity].
    + fold hit. destruct (hit kws) eqn:Eh.
      * split; [discriminate|]. intros H.
        apply Forall_cons in H as [H _]. cbn [snd] in H. congruence.
      * rewrite IH. split; [intros H; constructor; auto|].
        intros H. now apply Forall_cons in H as [_ H].
  - intros keywords. subst hit. unfold Parsing.keyword_hit.
    rewrite existsb_exists. split.
    + intros (kw & Hin & Hinc). apply includes_spec in Hinc as (pre & post & H).
      exists kw, pre, post. split; [now apply list_elem_of_In | exact H].
    + intros (kw & pre & post & Hin & H). exists kw.
      split; [now apply list_elem_of_In|]. apply includes_spec. eauto.
Qed.

(** ** Tool registration and dispatch *)



(** X11.  [registerTool] makes the tool the one that is dispatched under
    its name: the lookup gives back the schema and handler just
    registered, a second registration under the same name replaces the
    first, the other names keep their tool and their dispatch, and a
    result naming the tool runs the new handler, whose value is recorded
    with [executed] set. *)
Theorem registerTool_then_dispatch
    (fc : FunctionCaller.FunctionCaller) (name : string)
    (s : FunctionCaller.Schema)
    (hd : FunctionCaller.Params -> FunctionCaller.HandlerOutcome) :
  let fc' := FunctionCaller.registerTool name s hd fc in
  FunctionCaller.tools fc' !! name = Some (FunctionCaller.mkTool s hd) /\
  FunctionCaller.toolSchemas fc' !! name = Some s /\
  (forall s0 hd0,
     FunctionCaller.registerTool name s hd
       (FunctionCaller.registerTool name s0 hd0 fc) = fc') /\
  (forall other, other <> name ->
     FunctionCaller.tools fc' !! other = FunctionCaller.tools fc !! other /\
     FunctionCaller.toolSchemas fc' !! other
       = FunctionCaller.toolSchemas fc !! other) /\
  (forall result,
     FunctionCaller.function result <> Some name ->
     FunctionCaller.execute fc' result = FunctionCaller.execute fc result) /\
  (forall result r,
     FunctionCaller.function result = Some name -> name <> "" ->
     hd (FunctionCaller.parameters result) = Resolved r ->
     exists res,
       FunctionCaller.execute fc' result = Resolved res /\
       FunctionCaller.executed res = Some true /\
       FunctionCaller.toolResult res = r).
Proof.
  intros fc'. subst fc'. unfold FunctionCaller.registerTool. cbn.
  split; [apply lookup_insert_eq|]. split; [apply lookup_insert_eq|].
  split; [intros; now rewrite !insert_insert_eq|].
  split; [intros other Hne; split; now apply lookup_insert_ne|].
  split.
  - intros result Hfun. unfold FunctionCaller.execute. cbn.
    destruct (FunctionCaller.function result) as [n|]; [|reflexivity].
    destruct (negb (String.eqb n "")); [|reflexivity].
    rewrite lookup_insert_ne by congruence. reflexivity.
  - intros result r Hfun Hname Hok. unfold FunctionCaller.execute. cbn.
    rewrite Hfun. apply String.eqb_neq in Hname. rewrite Hname. cbn.
    rewrite lookup_insert_eq. cbn. rewrite Hok.
    eexists. repeat split.
Qed.

(** ** The pipeline: initialisation *)

Section PipelineMore.
Import Pipeline.

Lemma or_default_str_twice o dflt :
  dflt <> "" ->
  or_default_str (Some (or_default_str o dflt)) dflt = or_default_str o dflt.
Proof.
  intros Hd. apply String.eqb_neq in Hd.
  destruct o as [w|]; cbn; [|now rewrite Hd].
  destruct (String.eqb w "") eqn:Ew; [now rewrite Hd | now rewrite Ew].
Qed.

Lemma new_detector_wakeWord opts :
  Detector.wakeWord
    (Detector.new
       (Detector.mkOptions (Some (debug (new opts)))
          (Some (wakeWord (new opts))) None None))
  = wakeWord (new opts).
Proof. cbn. now apply or_default_str_twice. Qed.

Lemma unit_completion (c : Completion unit) :
  c = Resolved tt \/ exists e, c = Rejected e.
Proof. destruct c as [[]|e]; eauto. Qed.

(** What [initialize] does to a pipeline fresh from the constructor. *)
Lemma initialize_new opts io :
  let r := initialize io (new opts) in
  (all_loaded io /\ Detector.known_wake_word (wakeWord (new opts)) = true ->
   r.2 = Resolved tt /\
   isInitialized r.1.1 = true /\ state r.1.1 = idle /\
   stt r.1.1 = true /\ tts r.1.1 = true /\
   tools r.1.1 = tools (new opts) /\
   errorListeners r.1.1 = 0%nat /\
   (exists d, wakeWordDetector r.1.1 = Some d /\
      Detector.isInitialized d = true /\ Detector.isRunning d = false /\
      Detector.wakeWord d = wakeWord (new opts)) /\
   (exists fc, functionCaller r.1.1 = Some fc /\
      FunctionCaller.isInitialized fc = true /\
      FunctionCaller.tools fc = tools (new opts) /\
      FunctionCaller.toolSchemas fc = ∅)) /\
  (~ (all_loaded io /\ Detector.known_wake_word (wakeWord (new opts)) = true)
   -> (exists e, r.2 = Rejected e) /\
      isInitialized r.1.1 = false /\ state r.1.1 = idle).
Proof.
  intros r. subst r. unfold initialize, all_loaded.
  cbn [isInitialized new].
  unfold Detector.initialize. cbn [Detector.isInitialized Detector.new].
  pose proof (new_detector_wakeWord opts) as Hw.
  cbn [Detector.wakeWord Detector.new] in Hw |- *. rewrite Hw.
  destruct (unit_completion (init_detector io)) as [-> | [e1 ->]];
    [|split; [intros [(H & _) _]; discriminate | intros _; cbn; eauto]].
  destruct (Detector.known_wake_word (wakeWord (new opts))) eqn:Ek;
    [|split; [intros [_ H]; discriminate | intros _; cbn; eauto]].
  destruct (unit_completion (init_stt io)) as [-> | [e2 ->]];
    [|split; [intros [(_ & H & _) _]; discriminate | intros _; cbn; eauto]].
  unfold FunctionCaller.initialize.
  cbn [FunctionCaller.isInitialized FunctionCaller.new].
  destruct (unit_completion (init_fc io)) as [-> | [e3 ->]];
    [|split; [intros [(_ & _ & H & _) _]; discriminate
             | intros _; cbn; eauto]].
  destruct (unit_completion (init_tts io)) as [-> | [e4 ->]];
    [|split; [intros [(_ & _ & _ & H) _]; discriminate
             | intros _; cbn; eauto]].
  split; [|intros H; exfalso; apply H; auto].
  intros _. cbn. repeat split.
  - eexists. split; [reflexivity|]. cbn. repeat split. exact Hw.
  - eexists. split; [reflexivity|]. cbn. repeat split.
Qed.

End PipelineMore.

(** X12.  [initialize] on a pipeline fresh from the constructor succeeds
    exactly when the four component initialisations go through and the
    wake word has a model.  It then leaves the pipeline initialised and
    [idle] with a detector that is initialised but not running and a
    function caller that holds the pipeline's tools; a second call is a
    no-op.  Otherwise the promise rejects and the pipeline stays
    uninitialised and [idle], so that a later call tries again. *)
Theorem pipeline_initialize_outcome
    (opts : Pipeline.Options) (io : Pipeline.InitIO) :
  let r := Pipeline.initialize io (Pipeline.new opts) in
  let p' := r.1.1 in
  (r.2 = Resolved tt <->
   all_loaded io /\
   Detector.known_wake_word (Pipeline.wakeWord (Pipeline.new opts)) = true) /\
  (r.2 = Resolved tt ->
   Pipeline.isInitialized p' = true /\ Pipeline.state p' = Pipeline.idle /\
   (exists d, Pipeline.wakeWordDetector p' = Some d /\
      Detector.isInitialized d = true /\ Detector.isRunning d = false) /\
   (exists fc, Pipeline.functionCaller p' = Some fc /\
      FunctionCaller.isInitialized fc = true /\
      FunctionCaller.tools fc = Pipeline.tools (Pipeline.new opts)) /\
   forall io', Pipeline.initialize io' p' = (p', [], Resolved tt)) /\
  (r.2 <> Resolved tt ->
   (exists e, r.2 = Rejected e) /\
   Pipeline.isInitialized p' = false /\ Pipeline.state p' = Pipeline.idle).
Proof.
  intros r p'.
  destruct (initialize_new opts io) as [Hyes Hno]. fold r p' in Hyes, Hno.
  assert (Hdec :
    (all_loaded io /\
     Detector.known_wake_word (Pipeline.wakeWord (Pipeline.new opts)) = true)
    \/ ~ (all_loaded io /\
          Detector.known_wake_word (Pipeline.wakeWord (Pipeline.new opts))
          = true)).
  { unfold all_loaded.
    destruct (unit_completion (Pipeline.init_detector io)) as [->|[? ->]];
    destruct (unit_completion (Pipeline.init_stt io)) as [->|[? ->]];
    destruct (unit_completion (Pipeline.init_fc io)) as [->|[? ->]];
    destruct (unit_completion (Pipeline.init_tts io)) as [->|[? ->]];
    destruct (Detector.known_wake_word _);
      try (left; repeat split; reflexivity);
      right; intros [(? & ? & ? & ?) ?]; discriminate. }
  split; [|split].
  - split; [|intros H; now apply Hyes].
    intros Hres. destruct Hdec as [H|H]; [exact H|].
    destruct (Hno H) as ([e He] & _). congruence.
  - intros Hres. destruct Hdec as [H|H].
    + destruct (Hyes H) as (_ & Hi & Hs & _ & _ & _ & _ & (d & Hd & Hdi & Hdr & _)
                            & (fc & Hfc & Hfi & Hft & _)).
      repeat split; try assumption; eauto.
      intros io'. unfold Pipeline.initialize. now rewrite Hi.
    + destruct (Hno H) as ([e He] & _). congruence.
  - intros Hres. destruct Hdec as [H|H]; [|now apply Hno].
    destruct (Hyes H) as (Hr & _). contradiction.
Qed.



(** ** The pipeline: every command cycle *)

(** X14.  [onSpeechEnd] outside [recording] does nothing at all.  From
    [recording], whatever the engines do, at most one text is handed to
    the synthesiser and the cycle ends in one of two ways: its promise
    resolves with the pipeline [listening], unpaused, and the detector
    resumed with its recording session cleared; or it rejects, which
    happens only when no ['error'] listener is registered, and then the
    pipeline is left paused in [transcribing], [processing] or
    [speaking] with the detector paused. *)
Theorem command_cycle_outcomes
    (p : Pipeline.VoicePipeline) (audio : option Samples)
    (io : Pipeline.CycleIO) :
  let r := Pipeline.onSpeechEnd p audio io in
  (Pipeline.state p <> Pipeline.recording ->
     r = Pipeline.mkRun p [] [] (Resolved tt)) /\
  (Pipeline.state p = Pipeline.recording ->
     (length (Pipeline.spoken r) <= 1)%nat /\
     (Pipeline.settled r = Resolved tt ->
        Pipeline.state (Pipeline.after r) = Pipeline.listening /\
        Pipeline.isPaused (Pipeline.after r) = false /\
        forall d, Pipeline.wakeWordDetector (Pipeline.after r) = Some d ->
          Detector.isPaused d = false /\ Detector.isRecording d = false /\
          Detector.recordingBuffer d = None) /\
     (forall e, Pipeline.settled r = Rejected e ->
        Pipeline.errorListeners p = 0%nat /\
        Pipeline.isPaused (Pipeline.after r) = true /\
        (Pipeline.state (Pipeline.after r) = Pipeline.transcribing \/
         Pipeline.state (Pipeline.after r) = Pipeline.processing \/
         Pipeline.state (Pipeline.after r) = Pipeline.speaking) /\
        forall d, Pipeline.wakeWordDetector (Pipeline.after r) = Some d ->
          Detector.isPaused d = true)).
Proof.
  intros r. subst r. unfold Pipeline.onSpeechEnd.
  destruct (decide (Pipeline.state p = Pipeline.recording)) as [Hrec|Hrec];
    [|split; [reflexivity | contradiction]].
  split; [contradiction|]. intros _.
  assert (Hcatch : forall q evs said e,
    (length said <= 1)%nat ->
    Pipeline.isPaused q = true ->
    Pipeline.errorListeners q = Pipeline.errorListeners p ->
    (Pipeline.state q = Pipeline.transcribing \/
     Pipeline.state q = Pipeline.processing \/
     Pipeline.state q = Pipeline.speaking) ->
    (forall d, Pipeline.wakeWordDetector q = Some d ->
       Detector.isPaused d = true) ->
    let c := Pipeline.cycle_catch q evs said e in
    (length (Pipeline.spoken c) <= 1)%nat /\
    (Pipeline.settled c = Resolved tt ->
       Pipeline.state (Pipeline.after c) = Pipeline.listening /\
       Pipeline.isPaused (Pipeline.after c) = false /\
       forall d, Pipeline.wakeWordDetector (Pipeline.after c) = Some d ->
         Detector.isPaused d = false /\ Detector.isRecording d = false /\
         Detector.recordingBuffer d = None) /\
    (forall e', Pipeline.settled c = Rejected e' ->
       Pipeline.errorListeners p = 0%nat /\
       Pipeline.isPaused (Pipeline.after c) = true /\
       (Pipeline.state (Pipeline.after c) = Pipeline.transcribing \/
        Pipeline.state (Pipeline.after c) = Pipeline.processing \/
        Pipeline.state (Pipeline.after c) = Pipeline.speaking) /\
       forall d, Pipeline.wakeWordDetector (Pipeline.after c) = Some d ->
         Detector.isPaused d = true)).
  { intros q evs said e Hlen Hq Hel Hst Hdet c. subst c.
    unfold Pipeline.cycle_catch.
    destruct (Nat.ltb_spec 0 (Pipeline.errorListeners q)) as [Hl|Hl]; cbn.
    - split; [exact Hlen|]. split; [|discriminate].
      intros _. repeat split;
        destruct (Pipeline.wakeWordDetector q); cbn in H |- *;
        try discriminate; injection H as <-; reflexivity.
    - split; [exact Hlen|]. split; [discriminate|].
      intros e' _. repeat split; auto. lia. }
  assert (Hresume : forall q,
    let c := (Pipeline.resume q).1 in
    Pipeline.state c = Pipeline.listening /\
    Pipeline.isPaused c = false /\
    forall d, Pipeline.wakeWordDetector c = Some d ->
      Detector.isPaused d = false /\ Detector.isRecording d = false /\
      Detector.recordingBuffer d = None).
  { intros q. cbn. repeat split;
      destruct (Pipeline.wakeWordDetector q); cbn in H |- *;
      try discriminate; injection H as <-; reflexivity. }
  assert (Hpaused : forall d,
            Pipeline.wakeWordDetector (Pipeline.pause p) = Some d ->
            Detector.isPaused d = true).
  { intros d. cbn. destruct (Pipeline.wakeWordDetector p); cbn;
      [intros [= <-]; reflexivity | discriminate]. }
  set (p1 := Pipeline.set_state Pipeline.transcribing (Pipeline.pause p)).
  destruct (if Pipeline.stt p1 then Pipeline.io_stt io
            else Rejected typeError) as [transcript|e].
  2:{ apply Hcatch; cbn; auto. }
  destruct (Pipeline.empty_transcript transcript).
  { cbn [Pipeline.resume]. cbn. split; [lia|]. split; [|discriminate].
    intros _. apply (Hresume p1). }
  set (p2 := Pipeline.set_state Pipeline.processing p1).
  destruct (Pipeline.functionCaller p2) as [fc|].
  2:{ apply Hcatch; cbn; auto. }
  destruct (FunctionCaller.process fc (default "" transcript)
              (Pipeline.io_fc io)) as [fc1 [result|e]].
  2:{ apply Hcatch; cbn; auto. }
  destruct (truthy_str (FunctionCaller.response result)).
  - set (p4 := Pipeline.set_state Pipeline.speaking
                 (Pipeline.set_functionCaller (Some fc1) p2)).
    destruct (if Pipeline.tts p4 then Pipeline.io_tts io
              else Rejected typeError) as [[]|e].
    + cbn. split; [lia|]. split; [|discriminate]. intros _.
      apply (Hresume p4).
    + apply Hcatch; cbn; auto.
  - cbn. split; [lia|]. split; [|discriminate]. intros _.
    apply (Hresume (Pipeline.set_functionCaller (Some fc1) p2)).
Qed.



(** ** The pipeline: tools offered and tools executable *)

Lemma registerAll_tools regs : forall p fc,
  Pipeline.functionCaller p = Some fc ->
  FunctionCaller.tools fc = Pipeline.tools p ->
  exists fc',
    Pipeline.functionCaller (registerAll regs p) = Some fc' /\
    FunctionCaller.tools fc' = Pipeline.tools (registerAll regs p) /\
    FunctionCaller.isInitialized fc' = FunctionCaller.isInitialized fc /\
    dom (FunctionCaller.tools fc')
      = dom (FunctionCaller.tools fc) ∪ list_to_set (reg_name <$> regs) /\
    dom (FunctionCaller.toolSchemas fc')
      = dom (FunctionCaller.toolSchemas fc)
        ∪ list_to_set (reg_name <$> regs).
Proof.
  induction regs as [|r regs IH]; intros p fc Hfc Htools.
  - exists fc. cbn. repeat split; try assumption; set_solver.
  - cbn [registerAll foldl]. fold (registerAll regs).
    set (p1 := Pipeline.registerTool (reg_name r) (reg_schema r)
                 (reg_handler r) p).
    set (fc1 := FunctionCaller.registerTool (reg_name r) (reg_schema r)
                  (reg_handler r) fc).
    destruct (IH p1 fc1) as (fc' & H1 & H2 & H3 & H4 & H5).
    { subst p1 fc1. unfold Pipeline.registerTool. cbn. now rewrite Hfc. }
    { subst p1 fc1. cbn. now rewrite Htools. }
    exists fc'. split; [exact H1|]. split; [exact H2|].
    split; [exact H3|].
    subst fc1. cbn in H4, H5. rewrite H4, H5, !dom_insert_L.
    cbn [fmap list_fmap list_to_set]. split; set_solver.
Qed.

(** X16.  The tools a pipeline can execute and the tools its function
    caller has a schema for are different sets: after a successful
    [initialize] and any sequence of [registerTool] calls, the executable
    tools are those given to the constructor together with the registered
    ones, while [toolSchemas], from which the system prompt lists the
    available functions, holds the registered ones only; the pipeline and
    its function caller agree on [tools] throughout. *)
Theorem tools_offered_and_executable
    (opts : Pipeline.Options) (io : Pipeline.InitIO)
    (regs : list Registration) :
  (Pipeline.initialize io (Pipeline.new opts)).2 = Resolved tt ->
  let p := registerAll regs
             (Pipeline.initialize io (Pipeline.new opts)).1.1 in
  exists fc,
    Pipeline.functionCaller p = Some fc /\
    FunctionCaller.tools fc = Pipeline.tools p /\
    dom (FunctionCaller.tools fc)
      = dom (default ∅ (Pipeline.opt_tools opts))
        ∪ list_to_set (reg_name <$> regs) /\
    dom (FunctionCaller.toolSchemas fc) = list_to_set (reg_name <$> regs).
Proof.
  intros Hok p.
  destruct (initialize_new opts io) as [Hyes Hno].
  assert (Hall : all_loaded io /\
                 Detector.known_wake_word
                   (Pipeline.wakeWord (Pipeline.new opts)) = true).
  { destruct (unit_completion (Pipeline.init_detector io)) as [H1|[? H1]];
    destruct (unit_completion (Pipeline.init_stt io)) as [H2|[? H2]];
    destruct (unit_completion (Pipeline.init_fc io)) as [H3|[? H3]];
    destruct (unit_completion (Pipeline.init_tts io)) as [H4|[? H4]];
    destruct (Detector.known_wake_word
                (Pipeline.wakeWord (Pipeline.new opts))) eqn:Ek;
      try (split; [repeat split; assumption | reflexivity]);
      exfalso;
      (destruct Hno as ([e He] & _);
       [intros [(G1 & G2 & G3 & G4) G5]; congruence | congruence]). }
  destruct (Hyes Hall) as (_ & _ & _ & _ & _ & Htools & _ & _
                           & (fc & Hfc & _ & Hft & Hsch)).
  destruct (registerAll_tools regs _ fc Hfc ltac:(congruence))
    as (fc' & H1 & H2 & _ & H4 & H5).
  exists fc'. fold p in H1, H2. split; [exact H1|]. split; [exact H2|].
  rewrite H4, H5, Hft, Hsch. cbn [Pipeline.tools Pipeline.new].
  split; [reflexivity | set_solver].
Qed.

Lemma tools_offered_and_executable_witness :
  let tool := FunctionCaller.mkTool youtube_schema (fun _ => Resolved None) in
  let opts := Pipeline.mkOptions None None None None
                (Some (<["play_youtube" := tool]> ∅)) in
  let regs := [mkRegistration "get_time" youtube_schema
                 (fun _ => Resolved None)] in
  let p := registerAll regs
             (Pipeline.initialize Pipeline.init_ok (Pipeline.new opts)).1.1 in
  (Pipeline.initialize Pipeline.init_ok (Pipeline.new opts)).2 = Resolved tt /\
  exists fc,
    Pipeline.functionCaller p = Some fc /\
    dom (FunctionCaller.toolSchemas fc) = list_to_set (reg_name <$> regs).
Proof.
  intros tool opts regs p.
  assert (H : (Pipeline.initialize Pipeline.init_ok (Pipeline.new opts)).2
              = Resolved tt) by reflexivity.
  split; [exact H|].
  destruct (tools_offered_and_executable opts Pipeline.init_ok regs H)
    as (fc & Hfc & _ & _ & Hs).
  exists fc. split; [exact Hfc | exact Hs].
Defined.

(** ** Minimum and maximum *)

Lemma Math_min_le a b : (Math_min a b <= a)%Q /\ (Math_min a b <= b)%Q.
Proof.
  unfold Math_min. destruct (Qle_bool a b) eqn:E.
  - apply Qle_bool_iff in E. split; [apply Qle_refl|exact E].
  - split; [|apply Qle_refl].
    destruct (Qlt_le_dec b a) as [H|H]; [apply Qlt_le_weak, H|].
    apply Qle_bool_iff in H. congruence.
Qed.

Lemma Math_max_ge a b : (a <= Math_max a b)%Q /\ (b <= Math_max a b)%Q.
Proof.
  unfold Math_max. destruct (Qle_bool a b) eqn:E.
  - apply Qle_bool_iff in E. split; [exact E|apply Qle_refl].
  - split; [apply Qle_refl|].
    destruct (Qlt_le_dec b a) as [H|H]; [apply Qlt_le_weak, H|].
    apply Qle_bool_iff in H. congruence.
Qed.

Lemma Math_min_glb a b c : (c <= a)%Q -> (c <= b)%Q -> (c <= Math_min a b)%Q.
Proof. unfold Math_min. destruct (Qle_bool a b); auto. Qed.

Lemma Math_max_lub a b c : (a <= c)%Q -> (b <= c)%Q -> (Math_max a b <= c)%Q.
Proof. unfold Math_max. destruct (Qle_bool a b); auto. Qed.

(** ** The tool registry *)

Lemma createTools_lookup registry handlers name :
  Definitions.createTools registry handlers !! name =
  (fun entry => FunctionCaller.mkTool (Definitions.schema entry)
                  (chosen_handler handlers name entry)) <$> registry !! name.
Proof.
  unfold Definitions.createTools, chosen_handler.
  rewrite map_lookup_imap.
  destruct (registry !! name) as [entry|]; cbn; [|reflexivity].
  destruct (handlers !! name); cbn; [reflexivity|].
  destruct (Definitions.handler entry); reflexivity.
Qed.

(** X17. [createTools] returns a tool for exactly the names of the
    registry, each with the schema of the registry and with the handler of
    the adapter if there is one, else the handler of the registry, else
    the handler that answers that the tool is not available. *)
Theorem createTools_keeps_registry_names
    (registry : gmap string Definitions.Entry)
    (handlers : gmap string Definitions.Handler) :
  dom (Definitions.createTools registry handlers) = dom registry /\
  forall name tool,
    Definitions.createTools registry handlers !! name = Some tool ->
    exists entry,
      registry !! name = Some entry /\
      FunctionCaller.schema tool = Definitions.schema entry /\
      FunctionCaller.handler tool =
        match handlers !! name, Definitions.handler entry with
        | Some h, _ => h
        | None, Some h => h
        | None, None => Definitions.unavailable name
        end.
Proof.
  split.
  - apply set_eq. intros name. rewrite !elem_of_dom, createTools_lookup.
    unfold is_Some. destruct (registry !! name); cbn; naive_solver.
  - intros name tool. rewrite createTools_lookup.
    destruct (registry !! name) as [entry|]; cbn; [|discriminate].
    intros [= <-]. exists entry. split; [reflexivity|]. split; [reflexivity|].
    cbn. unfold chosen_handler.
    destruct (handlers !! name); cbn; [reflexivity|].
    destruct (Definitions.handler entry); reflexivity.
Qed.

(** X18. A function caller built on the tools of [createTools]: when the
    model names a tool of the registry for which neither the adapter nor
    the registry has a handler, the call counts as executed and the
    response is that the tool is not available. *)
Theorem unserved_tool_answers_unavailable
    (registry : gmap string Definitions.Entry)
    (handlers : gmap string Definitions.Handler)
    (fc : FunctionCaller.FunctionCaller)
    (name : string) (entry : Definitions.Entry)
    (result : FunctionCaller.IntentResult)
    (Htools : FunctionCaller.tools fc
              = Definitions.createTools registry handlers)
    (Hentry : registry !! name = Some entry)
    (Hown : Definitions.handler entry = None)
    (Hadapter : handlers !! name = None)
    (Hfun : FunctionCaller.function result = Some name)
    (Hname : name <> "") :
  exists r,
    FunctionCaller.execute fc result = Resolved r /\
    FunctionCaller.response r
      = Some ("Sorry, " +:+ name +:+ " is not available right now.") /\
    FunctionCaller.executed r = Some true /\
    FunctionCaller.error r = FunctionCaller.error result.
Proof.
  unfold FunctionCaller.execute.
  rewrite Hfun, Htools, createTools_lookup, Hentry. cbn.
  destruct (String.eqb_spec name ""); [contradiction|]. cbn.
  unfold chosen_handler. rewrite Hadapter, Hown. cbn.
  eexists. split; [reflexivity|]. cbn. auto.
Qed.

Lemma unserved_tool_answers_unavailable_witness :
  exists r,
    FunctionCaller.execute
      (FunctionCaller.new
         (FunctionCaller.mkOptions None None
            (Some (Definitions.createTools (Definitions.TOOLS sample_clock)
                     (Driving.handlers (YouTube.new YouTube.no_options)
                        (Resolved []) (Definitions.unavailable "navigate"))))))
      (FunctionCaller.mkIntent (Some "set_reminder") [("message", "call home")]
         (Some "Okay") None None None)
    = Resolved r /\
    FunctionCaller.response r
      = Some ("Sorry, " +:+ "set_reminder" +:+ " is not available right now.") /\
    FunctionCaller.executed r = Some true /\
    FunctionCaller.error r = None.
Proof.
  apply (unserved_tool_answers_unavailable
           (Definitions.TOOLS sample_clock)
           (Driving.handlers (YouTube.new YouTube.no_options)
              (Resolved []) (Definitions.unavailable "navigate"))
           _ "set_reminder"
           (Definitions.mkEntry
              (FunctionCaller.mkSchema "Set a reminder for later"
                 [("message", "string"); ("minutes", "number")]) None)).
  - reflexivity.
  - vm_compute. reflexivity.
  - reflexivity.
  - vm_compute. reflexivity.
  - reflexivity.
  - discriminate.
Defined.



(** ** The YouTube tool *)

Section YouTubeFacts.

Lemma mediaControl_volume action t :
  YouTube.volume (YouTube.mediaControl action t).1 = YouTube.volume t \/
  YouTube.volume (YouTube.mediaControl action t).1
    = Math_min 1 (YouTube.volume t + 0.1) \/
  YouTube.volume (YouTube.mediaControl action t).1
    = Math_max 0 (YouTube.volume t - 0.1).
Proof.
  unfold YouTube.mediaControl.
  repeat case_match; cbn; auto.
Qed.

Lemma mediaControl_in_range action t :
  in_range (YouTube.volume t) ->
  in_range (YouTube.volume (YouTube.mediaControl action t).1).
Proof.
  intros [H0 H1].
  destruct (mediaControl_volume action t) as [E|[E|E]]; rewrite E.
  - split; assumption.
  - split.
    + apply Math_min_glb; [discriminate|].
      apply Qle_trans with (YouTube.volume t); [exact H0|].
      rewrite <- (Qplus_0_r (YouTube.volume t)) at 1.
      apply Qplus_le_compat; [apply Qle_refl|discriminate].
    + apply Math_min_le.
  - split.
    + apply Math_max_ge.
    + apply Math_max_lub; [discriminate|].
      apply Qle_trans with (YouTube.volume t); [|exact H1].
      rewrite <- (Qplus_0_r (YouTube.volume t)) at 2.
      apply Qplus_le_compat; [apply Qle_refl|discriminate].
Qed.

End YouTubeFacts.

(** X20. The volume of the YouTube tool never leaves [0, 1]: starting
    from a volume in that range, as the default 0.5 is, it stays in it
    through any sequence of media-control actions, known or unknown. *)
Theorem volume_stays_in_range (actions : list (option string))
    (t : YouTube.YouTubeTool) (Hv : in_range (YouTube.volume t)) :
  in_range (YouTube.volume (YouTube.mediaControls actions t)).
Proof.
  unfold YouTube.mediaControls.
  revert t Hv. induction actions as [|a actions IH]; intros t Hv; cbn.
  - exact Hv.
  - apply IH, mediaControl_in_range, Hv.
Qed.

Lemma volume_stays_in_range_witness :
  in_range
    (YouTube.volume
       (YouTube.mediaControls
          (replicate 7 (Some "volume_up") ++ [Some "mute"]
           ++ replicate 12 (Some "volume_down"))
          (YouTube.new YouTube.no_options))).
Proof.
  apply (volume_stays_in_range _ (YouTube.new YouTube.no_options)).
  split; discriminate.
Defined.


(** X22. A track that [play] finds while the queue is empty is both the
    current track and the only track of the queue, so that the next
    [skip] announces that same track, leaves it current and empties the
    queue, and a second [skip] finds no more tracks. *)
Theorem play_then_skip_repeats_track (params : FunctionCaller.Params)
    (video : YouTube.Video) (more : list YouTube.Video)
    (t : YouTube.YouTubeTool) (Hempty : YouTube.queue t = []) :
  let played := (YouTube.play params (Resolved (video :: more)) t).1 in
  let skipped := YouTube.mediaControl (Some "skip") played in
  YouTube.currentTrack played = Some (YouTube.track_of video) /\
  skipped.2 = "Skipping to " +:+ interpolate (YouTube.v_title video) /\
  YouTube.currentTrack skipped.1 = Some (YouTube.track_of video) /\
  YouTube.queue skipped.1 = [] /\
  YouTube.mediaControl (Some "skip") skipped.1
    = (skipped.1, "No more tracks in queue").
Proof.
  cbn. rewrite Hempty. cbn. auto.
Qed.

Lemma play_then_skip_repeats_track_witness :
  let played :=
    (YouTube.play [("query", "blue in green")] (Resolved (sample_video :: []))
       (YouTube.new YouTube.no_options)).1 in
  let skipped := YouTube.mediaControl (Some "skip") played in
  YouTube.currentTrack played = Some (YouTube.track_of sample_video) /\
  skipped.2 = "Skipping to " +:+ interpolate (YouTube.v_title sample_video) /\
  YouTube.currentTrack skipped.1 = Some (YouTube.track_of sample_video) /\
  YouTube.queue skipped.1 = [] /\
  YouTube.mediaControl (Some "skip") skipped.1
    = (skipped.1, "No more tracks in queue").
Proof.
  apply (play_then_skip_repeats_track [("query", "blue in green")]
           sample_video [] (YouTube.new YouTube.no_options)).
  reflexivity.
Defined.



(** ** Speech synthesis: the phrase cache *)

Section CacheFacts.

Lemma cache_get_has key m :
  TTS.cache_get key m = None <-> TTS.cache_has key m = false.
Proof.
  unfold TTS.cache_get, TTS.cache_has.
  induction m as [|kv m IH]; cbn; [tauto|].
  destruct (String.eqb kv.1 key); cbn; [split; discriminate|exact IH].
Qed.

Lemma cache_has_keys key m :
  TTS.cache_has key m = true <-> key ∈ cache_keys m.
Proof.
  unfold TTS.cache_has, cache_keys.
  induction m as [|kv m IH]; cbn.
  - split; [discriminate|]. intros H. inversion H.
  - rewrite elem_of_cons, <- IH.
    destruct (String.eqb_spec kv.1 key) as [E|N]; cbn.
    + split; [intros _; left; symmetry; exact E|reflexivity].
    + split; [tauto|]. intros [E|H]; [congruence|exact H].
Qed.

Lemma cache_set_absent key a m :
  TTS.cache_has key m = false -> TTS.cache_set key a m = m ++ [(key, a)].
Proof.
  unfold TTS.cache_has.
  induction m as [|kv m IH]; cbn; [reflexivity|].
  destruct (String.eqb kv.1 key); cbn; [discriminate|].
  intros H. rewrite IH by exact H. reflexivity.
Qed.

Lemma cache_set_present key a m :
  TTS.cache_has key m = true ->
  cache_keys (TTS.cache_set key a m) = cache_keys m.
Proof.
  unfold TTS.cache_has, cache_keys.
  induction m as [|kv m IH]; cbn; [discriminate|].
  destruct (String.eqb_spec kv.1 key) as [E|N]; cbn.
  - intros _. rewrite E. reflexivity.
  - intros H. rewrite IH by exact H. reflexivity.
Qed.

Lemma cache_set_keys key a m :
  NoDup (cache_keys m) -> NoDup (cache_keys (TTS.cache_set key a m)).
Proof.
  intros Hnd. destruct (TTS.cache_has key m) eqn:E.
  - rewrite cache_set_present by exact E. exact Hnd.
  - rewrite cache_set_absent by exact E. unfold cache_keys in *.
    rewrite fmap_app. apply NoDup_app. split; [exact Hnd|].
    split; [|cbn; apply NoDup_singleton].
    intros k Hk Hin. cbn in Hin. apply list_elem_of_singleton in Hin. subst k.
    apply cache_has_keys in Hk. congruence.
Qed.

Lemma cache_set_length key a m :
  (length (TTS.cache_set key a m) <= S (length m))%nat.
Proof.
  induction m as [|kv m IH]; cbn; [lia|].
  destruct (String.eqb kv.1 key); cbn; lia.
Qed.

Lemma cache_get_app_absent key m m' :
  TTS.cache_has key m = false ->
  TTS.cache_get key (m ++ m') = TTS.cache_get key m'.
Proof.
  unfold TTS.cache_has, TTS.cache_get.
  induction m as [|kv m IH]; cbn; [reflexivity|].
  destruct (String.eqb kv.1 key); cbn; [discriminate|exact IH].
Qed.

Lemma cache_has_tail key m :
  TTS.cache_has key m = false -> TTS.cache_has key (tail m) = false.
Proof.
  unfold TTS.cache_has. destruct m as [|kv m]; cbn; [reflexivity|].
  destruct (String.eqb kv.1 key); cbn; [discriminate|auto].
Qed.

Lemma cache_get_last key a :
  TTS.cache_get key [(key, a)] = Some a.
Proof. unfold TTS.cache_get. cbn. rewrite String.eqb_refl. reflexivity. Qed.

Lemma remember_ok key a t :
  cache_ok t -> cache_ok (TTS.remember key a t).
Proof.
  intros [Hlen Hnd]. unfold TTS.remember, cache_ok.
  destruct (TTS.caching t); [|split; assumption].
  pose proof (cache_set_length key a (TTS.audioCache t)) as Hl.
  pose proof (cache_set_keys key a _ Hnd) as Hk.
  destruct (Nat.ltb_spec (TTS.maxCacheSize t)
              (length (TTS.cache_set key a (TTS.audioCache t)))) as [Hlt|Hge].
  - unfold TTS.cache_delete_first.
    destruct (TTS.cache_set key a (TTS.audioCache t)) as [|kv m]; cbn in *.
    + lia.
    + split; [lia|]. unfold cache_keys in Hk. cbn in Hk.
      apply NoDup_cons in Hk. apply Hk.
  - cbn. split; [lia|exact Hk].
Qed.

Lemma remember_maxCacheSize key a t :
  TTS.maxCacheSize (TTS.remember key a t) = TTS.maxCacheSize t.
Proof. unfold TTS.remember. destruct (TTS.caching t); reflexivity. Qed.

Lemma generate_ok text voiceId io t :
  cache_ok t ->
  cache_ok (TTS.generate text voiceId io t).1 /\
  TTS.maxCacheSize (TTS.generate text voiceId io t).1 = TTS.maxCacheSize t.
Proof.
  intros Hok. unfold TTS.generate.
  destruct (TTS.isInitialized t).
  - destruct (if TTS.caching t then _ else _); cbn; [auto|].
    destruct (TTS.io_synth io); cbn; [|auto].
    split; [apply remember_ok, Hok|apply remember_maxCacheSize].
  - assert (Hok1 : cache_ok (TTS.set_isInitialized true t)) by exact Hok.
    destruct (TTS.io_init io); cbn; [|auto].
    destruct (if TTS.caching t then _ else _); cbn; [auto|].
    destruct (TTS.io_synth io); cbn; [|auto].
    split; [apply remember_ok; exact Hok1|].
    rewrite remember_maxCacheSize. reflexivity.
Qed.

End CacheFacts.

(** X24. The phrase cache never outgrows its bound: through any sequence
    of [generate] calls, however each of them settles, the cache holds at
    most [maxCacheSize] entries, under distinct keys, and [maxCacheSize]
    does not change. *)
Theorem cache_stays_bounded
    (calls : list (string * option string * TTS.GenerateIO))
    (t : TTS.TextToSpeech) (Hok : cache_ok t) :
  cache_ok (TTS.generateAll calls t) /\
  TTS.maxCacheSize (TTS.generateAll calls t) = TTS.maxCacheSize t.
Proof.
  unfold TTS.generateAll.
  revert t Hok. induction calls as [|c calls IH]; intros t Hok; cbn.
  - auto.
  - destruct (generate_ok c.1.1 c.1.2 c.2 t Hok) as [Hok' Hmax].
    destruct (IH _ Hok') as [H1 H2]. split; [exact H1|]. congruence.
Qed.

Lemma cache_stays_bounded_witness :
  cache_ok
    (TTS.generateAll
       (map (fun k : nat =>
               (pretty k, None, synthesised (sample_audio (inject_Z (Z.of_nat k)))))
            (seq 0 60))
       (TTS.new TTS.no_options)) /\
  TTS.maxCacheSize
    (TTS.generateAll
       (map (fun k : nat =>
               (pretty k, None, synthesised (sample_audio (inject_Z (Z.of_nat k)))))
            (seq 0 60))
       (TTS.new TTS.no_options))
  = TTS.maxCacheSize (TTS.new TTS.no_options).
Proof.
  apply (cache_stays_bounded _ (TTS.new TTS.no_options)).
  split; [cbn; lia|constructor].
Defined.

(** X25. With caching on and room for at least one entry, a phrase that
    [generate] has just produced is served from the cache: the same call
    again resolves with the same audio and leaves the synthesiser as it
    is, whatever the synthesis would do this time. *)
Theorem cached_phrase_needs_no_synthesis
    (text : string) (voiceId : option string) (io io' : TTS.GenerateIO)
    (t : TTS.TextToSpeech) (a : TTS.Audio)
    (Hcaching : TTS.caching t = true)
    (Hroom : (1 <= TTS.maxCacheSize t)%nat)
    (Hfirst : (TTS.generate text voiceId io t).2 = Resolved a) :
  TTS.generate text voiceId io' (TTS.generate text voiceId io t).1
  = ((TTS.generate text voiceId io t).1, Resolved a).
Proof.
  assert (Hstep : forall t1,
            TTS.caching t1 = true -> TTS.isInitialized t1 = true ->
            (1 <= TTS.maxCacheSize t1)%nat ->
            forall r,
              (match TTS.cache_get
                       (TTS.cacheKey (or_default_str voiceId (TTS.voice t1)) text)
                       (TTS.audioCache t1) with
               | Some hit => (t1, Resolved hit)
               | None =>
                   match TTS.io_synth io with
                   | Resolved result =>
                       (TTS.remember
                          (TTS.cacheKey (or_default_str voiceId (TTS.voice t1))
                             text) result t1, Resolved result)
                   | Rejected e => (t1, Rejected e)
                   end
               end) = r ->
              r.2 = Resolved a ->
              TTS.generate text voiceId io' r.1 = (r.1, Resolved a)).
  { intros t1 Hc Hi Hm r Hr Ha.
    set (key := TTS.cacheKey (or_default_str voiceId (TTS.voice t1)) text) in *.
    destruct (TTS.cache_get key (TTS.audioCache t1)) as [hit|] eqn:Hget.
    - subst r. cbn in Ha. injection Ha as ->. cbn.
      unfold TTS.generate. rewrite Hi, Hc. fold key. rewrite Hget. reflexivity.
    - destruct (TTS.io_synth io) as [result|e]; subst r; cbn in Ha;
        [|discriminate].
      injection Ha as ->. cbn.
      apply cache_get_has in Hget.
      assert (Hcache :
                TTS.cache_get key (TTS.audioCache (TTS.remember key a t1))
                = Some a).
      { unfold TTS.remember. rewrite Hc. cbn [TTS.audioCache TTS.set_audioCache].
        rewrite (cache_set_absent _ _ _ Hget).
        destruct (Nat.ltb_spec (TTS.maxCacheSize t1)
                    (length (TTS.audioCache t1 ++ [(key, a)]))) as [Hlt|Hge].
        - unfold TTS.cache_delete_first.
          destruct (TTS.audioCache t1) as [|kv m] eqn:Em.
          + cbn in Hlt. lia.
          +
            change (TTS.cache_get key (m ++ [(key, a)]) = Some a).
            rewrite cache_get_app_absent; [apply cache_get_last|].
            apply (cache_has_tail key (kv :: m)), Hget.
        - rewrite cache_get_app_absent by exact Hget. apply cache_get_last. }
      unfold TTS.generate.
      assert (Hi' : TTS.isInitialized (TTS.remember key a t1) = true)
        by (unfold TTS.remember; rewrite Hc; exact Hi).
      assert (Hc' : TTS.caching (TTS.remember key a t1) = true)
        by (unfold TTS.remember; rewrite Hc; exact Hc).
      assert (Hv' : TTS.voice (TTS.remember key a t1) = TTS.voice t1)
        by (unfold TTS.remember; rewrite Hc; reflexivity).
      rewrite Hi', Hc', Hv'. fold key. rewrite Hcache. reflexivity. }
  revert Hfirst. unfold TTS.generate at 1 3 4.
  destruct (TTS.isInitialized t) eqn:Hinit.
  - rewrite Hcaching. intros Hfirst.
    eapply Hstep; eauto.
  - destruct (TTS.io_init io) as [[]|e]; [|discriminate].
    cbn [TTS.caching TTS.set_isInitialized TTS.voice TTS.audioCache].
    rewrite Hcaching. intros Hfirst.
    apply (Hstep (TTS.set_isInitialized true t) Hcaching eq_refl Hroom _ eq_refl).
    exact Hfirst.
Qed.

Lemma cached_phrase_needs_no_synthesis_witness :
  TTS.generate "Paused" None
    (TTS.mkGenerateIO (Resolved tt) (Rejected ThrownOther))
    (TTS.generate "Paused" None (synthesised (sample_audio 1))
       (TTS.new TTS.no_options)).1
  = ((TTS.generate "Paused" None (synthesised (sample_audio 1))
        (TTS.new TTS.no_options)).1,
     Resolved (sample_audio 1)).
Proof.
  apply (cached_phrase_needs_no_synthesis "Paused" None
           (synthesised (sample_audio 1))
           (TTS.mkGenerateIO (Resolved tt) (Rejected ThrownOther))
           (TTS.new TTS.no_options) (sample_audio 1)).
  - reflexivity.
  - cbn. lia.
  - reflexivity.
Defined.

(** X26. The cache evicts in order of insertion, not of use.  With the
    cache full, a hit on the oldest phrase changes nothing; the next new
    phrase then takes the place of that oldest phrase, which has to be
    synthesised again when it is asked for once more. *)
Theorem oldest_phrase_evicted_even_if_just_used
    (text0 text1 : string) (voice0 voice1 : option string)
    (io0 io1 io2 : TTS.GenerateIO) (t : TTS.TextToSpeech)
    (a0 a1 : TTS.Audio) (rest : TTS.Cache)
    (Hinit : TTS.isInitialized t = true)
    (Hcaching : TTS.caching t = true)
    (Hcache : TTS.audioCache t
              = (TTS.cacheKey (or_default_str voice0 (TTS.voice t)) text0, a0)
                :: rest)
    (Hfull : length (TTS.audioCache t) = TTS.maxCacheSize t)
    (Hnodup : NoDup (cache_keys (TTS.audioCache t)))
    (Hnew : TTS.cache_has
              (TTS.cacheKey (or_default_str voice1 (TTS.voice t)) text1)
              (TTS.audioCache t) = false)
    (Hsynth : TTS.io_synth io1 = Resolved a1) :
  TTS.generate text0 voice0 io0 t = (t, Resolved a0) /\
  (TTS.generate text1 voice1 io1 t).2 = Resolved a1 /\
  TTS.audioCache (TTS.generate text1 voice1 io1 t).1
    = rest ++ [(TTS.cacheKey (or_default_str voice1 (TTS.voice t)) text1, a1)] /\
  (TTS.generate text0 voice0 io2 (TTS.generate text1 voice1 io1 t).1).2
    = TTS.io_synth io2.
Proof.
  set (key0 := TTS.cacheKey (or_default_str voice0 (TTS.voice t)) text0) in *.
  set (key1 := TTS.cacheKey (or_default_str voice1 (TTS.voice t)) text1) in *.
  assert (Hget0 : TTS.cache_get key0 (TTS.audioCache t) = Some a0).
  { rewrite Hcache. unfold TTS.cache_get. cbn.
    rewrite String.eqb_refl. reflexivity. }
  assert (Hget1 : TTS.cache_get key1 (TTS.audioCache t) = None)
    by (apply cache_get_has, Hnew).
  assert (Hgen1 : TTS.generate text1 voice1 io1 t
                  = (TTS.remember key1 a1 t, Resolved a1)).
  { unfold TTS.generate. rewrite Hinit, Hcaching. fold key1.
    rewrite Hget1, Hsynth. reflexivity. }
  assert (Hcache1 : TTS.audioCache (TTS.remember key1 a1 t)
                    = rest ++ [(key1, a1)]).
  { unfold TTS.remember. rewrite Hcaching.
    cbn [TTS.audioCache TTS.set_audioCache].
    rewrite (cache_set_absent _ _ _ Hnew).
    destruct (Nat.ltb_spec (TTS.maxCacheSize t)
                (length (TTS.audioCache t ++ [(key1, a1)]))) as [Hlt|Hge].
    - rewrite Hcache. reflexivity.
    - rewrite length_app in Hge. cbn in Hge. lia. }
  split.
  { unfold TTS.generate. rewrite Hinit, Hcaching. fold key0.
    rewrite Hget0. reflexivity. }
  rewrite Hgen1. cbn [fst snd].
  split; [reflexivity|]. split; [exact Hcache1|].
  assert (Hmiss : TTS.cache_get key0 (rest ++ [(key1, a1)]) = None).
  { apply cache_get_has.
    destruct (TTS.cache_has key0 (rest ++ [(key1, a1)])) eqn:E; [|reflexivity].
    exfalso. apply cache_has_keys in E. unfold cache_keys in E.
    rewrite fmap_app in E. apply elem_of_app in E.
    rewrite Hcache in Hnodup, Hnew. unfold cache_keys in Hnodup.
    cbn in Hnodup. apply NoDup_cons in Hnodup as [Hnotin _].
    destruct E as [E|E]; [exact (Hnotin E)|].
    cbn in E. apply list_elem_of_singleton in E.
    unfold TTS.cache_has in Hnew. cbn in Hnew. rewrite E in Hnew.
    rewrite String.eqb_refl in Hnew. discriminate. }
  unfold TTS.generate.
  assert (Hi' : TTS.isInitialized (TTS.remember key1 a1 t) = true)
    by (unfold TTS.remember; rewrite Hcaching; exact Hinit).
  assert (Hc' : TTS.caching (TTS.remember key1 a1 t) = true)
    by (unfold TTS.remember; rewrite Hcaching; exact Hcaching).
  assert (Hv' : TTS.voice (TTS.remember key1 a1 t) = TTS.voice t)
    by (unfold TTS.remember; rewrite Hcaching; reflexivity).
  rewrite Hi', Hc', Hv', Hcache1. fold key0. rewrite Hmiss.
  destruct (TTS.io_synth io2); reflexivity.
Qed.

Lemma oldest_phrase_evicted_even_if_just_used_witness :
  TTS.generate "Paused" None (synthesised (sample_audio 9)) full_cache
    = (full_cache, Resolved (sample_audio 0)) /\
  (TTS.generate "Resumed" None (synthesised (sample_audio 2)) full_cache).2
    = Resolved (sample_audio 2) /\
  TTS.audioCache
    (TTS.generate "Resumed" None (synthesised (sample_audio 2)) full_cache).1
    = [("M3:Stopped playback", sample_audio 1)]
      ++ [(TTS.cacheKey (or_default_str None (TTS.voice full_cache)) "Resumed",
           sample_audio 2)] /\
  (TTS.generate "Paused" None
     (TTS.mkGenerateIO (Resolved tt) (Rejected ThrownOther))
     (TTS.generate "Resumed" None (synthesised (sample_audio 2)) full_cache).1).2
    = TTS.io_synth (TTS.mkGenerateIO (Resolved tt) (Rejected ThrownOther)).
Proof.
  apply (oldest_phrase_evicted_even_if_just_used "Paused" "Resumed" None None
           (synthesised (sample_audio 9)) (synthesised (sample_audio 2))
           (TTS.mkGenerateIO (Resolved tt) (Rejected ThrownOther))
           full_cache (sample_audio 0) (sample_audio 2)
           [("M3:Stopped playback", sample_audio 1)]).
  - reflexivity.
  - reflexivity.
  - reflexivity.
  - reflexivity.
  - vm_compute. repeat constructor; set_solver.
  - reflexivity.
  - reflexivity.
Defined.

(** ** Speech synthesis: masks and playback samples *)

Section MaskFacts.

Lemma mask_row_shape maxLen len :
  TTS.mask_row maxLen len
  = ones_then_zeros (Z.to_nat maxLen `min` Z.to_nat len) (Z.to_nat maxLen).
Proof.
  unfold TTS.mask_row, ones_then_zeros.
  generalize (Z.to_nat maxLen) as M. intros M.
  induction M as [|M IH].
  - reflexivity.
  - rewrite seq_S, map_app, IH. cbn [map Nat.add].
    destruct (Z.ltb_spec (Z.of_nat M) len) as [Hlt|Hge].
    + replace (S M `min` Z.to_nat len)%nat with (S M) by lia.
      replace (M `min` Z.to_nat len)%nat with M by lia.
      replace (M - M)%nat with 0%nat by lia.
      replace (S M - S M)%nat with 0%nat by lia.
      rewrite replicate_S_end. cbn [replicate]. rewrite !app_nil_r.
      reflexivity.
    + replace (S M `min` Z.to_nat len)%nat with (Z.to_nat len) by lia.
      replace (M `min` Z.to_nat len)%nat with (Z.to_nat len) by lia.
      replace (S M - Z.to_nat len)%nat with (S (M - Z.to_nat len)) by lia.
      rewrite replicate_S_end, app_assoc. reflexivity.
Qed.

Lemma foldl_max_ge ls l :
  l <= foldl Z.max l ls /\ forall x, x ∈ ls -> x <= foldl Z.max l ls.
Proof.
  revert l. induction ls as [|y ls IH]; intros l; cbn.
  - split; [lia|]. intros x Hx. inversion Hx.
  - destruct (IH (Z.max l y)) as [H1 H2]. split; [lia|].
    intros x Hx. apply elem_of_cons in Hx as [->|Hx]; [lia|auto].
Qed.

Lemma foldl_max_in ls l : foldl Z.max l ls ∈ l :: ls.
Proof.
  revert l. induction ls as [|y ls IH]; intros l; cbn.
  - apply elem_of_cons. left. reflexivity.
  - specialize (IH (Z.max l y)). apply elem_of_cons in IH as [E|IH].
    + rewrite E. rewrite !elem_of_cons.
      destruct (Z.max_spec l y) as [[_ ->]|[_ ->]]; auto.
    + rewrite !elem_of_cons. auto.
Qed.

Lemma max_of_spec lengths :
  match TTS.max_of lengths with
  | Some m => m ∈ lengths /\ forall x, x ∈ lengths -> x <= m
  | None => lengths = []
  end.
Proof.
  destruct lengths as [|l ls]; cbn; [reflexivity|].
  split; [apply foldl_max_in|].
  intros x Hx. destruct (foldl_max_ge ls l) as [H1 H2].
  apply elem_of_cons in Hx as [->|Hx]; auto.
Qed.

Lemma lengthToMask_lookup lengths maxLen i len :
  lengths !! i = Some len ->
  TTS.lengthToMask lengths maxLen !! i
  = Some [TTS.mask_row
            (default 0 (match maxLen with
                        | Some m => if m =? 0 then TTS.max_of lengths else Some m
                        | None => TTS.max_of lengths
                        end)) len].
Proof.
  intros H. unfold TTS.lengthToMask.
  change (map ?f ?l) with (f <$> l).
  rewrite list_lookup_fmap, H. reflexivity.
Qed.

End MaskFacts.

(** X27. [lengthToMask] gives one row per length, all rows of one width:
    the given [maxLen], or the greatest of the lengths when [maxLen] is
    omitted or zero.  Each row is ones for the first [len] positions, as
    far as the width goes, and zeros after them. *)
Theorem lengthToMask_rows (lengths : list Z) (maxLen : option Z) :
  exists width : nat,
    (forall m, maxLen = Some m -> m <> 0 -> width = Z.to_nat m) /\
    (maxLen = None \/ maxLen = Some 0 ->
       (forall len, len ∈ lengths -> (Z.to_nat len <= width)%nat) /\
       (lengths <> [] -> exists len, len ∈ lengths /\ Z.to_nat len = width)) /\
    length (TTS.lengthToMask lengths maxLen) = length lengths /\
    forall i len,
      lengths !! i = Some len ->
      TTS.lengthToMask lengths maxLen !! i
      = Some [ones_then_zeros (width `min` Z.to_nat len) width].
Proof.
  set (eff := match maxLen with
              | Some m => if m =? 0 then TTS.max_of lengths else Some m
              | None => TTS.max_of lengths
              end).
  exists (Z.to_nat (default 0 eff)).
  assert (Hmax : maxLen = None \/ maxLen = Some 0 -> eff = TTS.max_of lengths).
  { intros [->| ->]; reflexivity. }
  split; [|split; [|split]].
  - intros m -> Hm. subst eff. cbn.
    destruct (Z.eqb_spec m 0); [contradiction|reflexivity].
  - intros H. rewrite (Hmax H).
    pose proof (max_of_spec lengths) as Hs.
    destruct (TTS.max_of lengths) as [m|]; cbn.
    + destruct Hs as [Hin Hge]. split.
      * intros len Hlen. specialize (Hge len Hlen). lia.
      * intros _. exists m. split; [exact Hin|reflexivity].
    + subst lengths. split.
      * intros len Hlen. inversion Hlen.
      * intros Hne. contradiction.
  - unfold TTS.lengthToMask. rewrite length_map. reflexivity.
  - intros i len Hi. rewrite (lengthToMask_lookup _ _ _ _ Hi).
    fold eff. rewrite mask_row_shape. reflexivity.
Qed.

(** X28. [getLatentMask], for a positive latent size: the row of an
    utterance of [len] samples has ones for exactly the latent frames
    that cover [len] samples, followed by zeros up to the common width,
    and the mask of a single utterance is all ones. *)
Theorem latent_mask_covers_samples (config : TTS.Config)
    (wavLengths : list Z)
    (Hsize : 0 < TTS.base_chunk_size config * TTS.chunk_compress_factor config) :
  let size := TTS.base_chunk_size config * TTS.chunk_compress_factor config in
  (exists width : nat,
     forall i len,
       wavLengths !! i = Some len -> 0 <= len ->
       exists k : nat,
         covers size len k /\ (k <= width)%nat /\
         TTS.getLatentMask config wavLengths !! i
         = Some [ones_then_zeros k width]) /\
  (forall len,
     wavLengths = [len] -> 0 <= len ->
     exists k : nat,
       covers size len k /\
       TTS.getLatentMask config wavLengths = [[replicate k 1%Q]]).
Proof.
  intros size.
  assert (Hceil : forall len, 0 <= len ->
            0 <= (len + size - 1) / size /\
            covers size len (Z.to_nat ((len + size - 1) / size))).
  { intros len Hlen.
    assert (Hq : 0 <= (len + size - 1) / size)
      by (apply Z.div_pos; lia).
    split; [exact Hq|]. unfold covers. rewrite Z2Nat.id by exact Hq.
    pose proof (Z.mul_div_le (len + size - 1) size Hsize) as H1.
    pose proof (Z.mul_succ_div_gt (len + size - 1) size Hsize) as H2.
    lia. }
  unfold TTS.getLatentMask. fold size.
  set (lat := map (fun len => (len + size - 1) / size) wavLengths).
  split.
  - exists (Z.to_nat (default 0 (TTS.max_of lat))). intros i len Hi Hlen.
    destruct (Hceil len Hlen) as [Hq Hcov].
    exists (Z.to_nat ((len + size - 1) / size)).
    assert (Hlat : lat !! i = Some ((len + size - 1) / size)).
    { subst lat. change (map ?f ?l) with (f <$> l).
      rewrite list_lookup_fmap, Hi. reflexivity. }
    assert (Hk : (Z.to_nat ((len + size - 1) / size)
                  <= Z.to_nat (default 0%Z (TTS.max_of lat)))%nat).
    { pose proof (max_of_spec lat) as Hs.
      destruct (TTS.max_of lat) as [m|]; cbn.
      - destruct Hs as [_ Hge].
        assert (Hin : (len + size - 1) / size ∈ lat)
          by (apply list_elem_of_lookup; exists i; exact Hlat).
        specialize (Hge _ Hin). lia.
      - rewrite Hs in Hlat. discriminate. }
    split; [exact Hcov|]. split; [exact Hk|].
    rewrite (lengthToMask_lookup _ _ _ _ Hlat), mask_row_shape.
    replace (Z.to_nat (default 0%Z (TTS.max_of lat))
             `min` Z.to_nat ((len + size - 1) / size))%nat
      with (Z.to_nat ((len + size - 1) / size)) by lia.
    reflexivity.
  - intros len -> Hlen. destruct (Hceil len Hlen) as [Hq Hcov].
    exists (Z.to_nat ((len + size - 1) / size)).
    split; [exact Hcov|].
    subst lat. unfold TTS.lengthToMask. cbn [map TTS.max_of foldl default].
    rewrite mask_row_shape. unfold ones_then_zeros.
    rewrite Nat.min_id, Nat.sub_diag. cbn [replicate].
    rewrite app_nil_r. reflexivity.
Qed.

Lemma latent_mask_covers_samples_witness :
  let size := 512 * 6 in
  (exists width : nat,
     forall i len,
       [3073] !! i = Some len -> 0 <= len ->
       exists k : nat,
         covers size len k /\ (k <= width)%nat /\
         TTS.getLatentMask (TTS.mkConfig 512 6) [3073] !! i
         = Some [ones_then_zeros k width]) /\
  (forall len,
     [3073] = [len] -> 0 <= len ->
     exists k : nat,
       covers size len k /\
       TTS.getLatentMask (TTS.mkConfig 512 6) [3073]
       = [[replicate k 1%Q]]).
Proof.
  apply (latent_mask_covers_samples (TTS.mkConfig 512 6) [3073]).
  reflexivity.
Defined.

(** X29. The samples that [playAudio] writes fit a signed 16-bit
    integer, whatever the synthesis produced, and louder is never
    written as quieter: the written value lies between -32767 and 32767
    and grows with the sample. *)
Theorem toInt16_in_range (sample : Q) :
  -32767 <= TTS.toInt16 sample <= 32767 /\
  forall sample', (sample <= sample')%Q ->
                  TTS.toInt16 sample <= TTS.toInt16 sample'.
Proof.
  unfold TTS.toInt16.
  assert (Hclamp : forall s,
            (-1 <= Math_max (-1) (Math_min 1 s))%Q /\
            (Math_max (-1) (Math_min 1 s) <= 1)%Q).
  { intros s. split; [apply Math_max_ge|].
    apply Math_max_lub; [discriminate|apply Math_min_le]. }
  split.
  - destruct (Hclamp sample) as [Hlo Hhi]. split.
    + rewrite <- (Qfloor_Z (-32767)). apply Qfloor_resp_le.
      change (inject_Z (-32767)) with ((-1) * 32767)%Q.
      apply Qmult_le_compat_r; [exact Hlo|discriminate].
    + rewrite <- (Qfloor_Z 32767) at 2. apply Qfloor_resp_le.
      change (inject_Z 32767) with (1 * 32767)%Q.
      apply Qmult_le_compat_r; [exact Hhi|discriminate].
  - intros sample' Hle. apply Qfloor_resp_le.
    apply Qmult_le_compat_r; [|discriminate].
    apply Math_max_lub; [apply Math_max_ge|].
    apply Qle_trans with (Math_min 1 sample'); [|apply Math_max_ge].
    apply Math_min_glb; [apply Math_min_le|].
    apply Qle_trans with sample; [apply Math_min_le|exact Hle].
Qed.
